(** * gnosis-tx: building, signing and submitting one Safe transaction proposal

    A shallow embedding of [main.go] (package [main]): the four functions
    [getSafeNonce], [getGasEstimation], [sendGnosisTx] and [sendTransaction],
    models of the library functions they lean on ([strconv.ParseInt],
    [strings.Join], [hexutil.Encode], and [encoding/json.Unmarshal] with its
    reader of JSON texts and its decoder into structs) and an interface for
    the primitives that are taken as given (the JSON text of a request,
    typed-data hashing, Keccak-256, secp256k1 signing).

    Effects are explicit: a computation receives the history of the events
    performed so far and returns its outcome with the events it performed
    itself.  The coordination service and the transport are an oracle that
    answers a request in view of the history. *)

From Stdlib Require Import ZArith Lia Bool List Ascii String.
From Stdlib Require Import Strings.Byte.
From stdpp Require Import base tactics option list strings pretty.
Import ListNotations.

Local Open Scope string_scope.
Local Open Scope Z_scope.
Local Open Scope list_scope.

Abbreviation byte := Byte.byte.
Abbreviation len := String.length.

(** ** Errors and results *)

(** The [Err] field of a [*strconv.NumError]. *)
Inductive NumErrKind : Type :=
  | ErrSyntax
  | ErrRange.

(** Go [error] values, by the package that creates them.  Errors made by
    packages that are taken as given carry their text; the decoding errors of
    [encoding/json] and [strconv] are kept structured (the byte offset of the
    JSON errors is left out). *)
Inductive error : Type :=
  | UrlError (text : string)                  (* net/http: http.Get, http.Post *)
  | ReadError (text : string)                 (* ioutil.ReadAll *)
  | SyntaxError                               (* *json.SyntaxError *)
  | UnmarshalTypeError (Value Type_ : string) (* *json.UnmarshalTypeError *)
  | NumError (Func Num : string) (Err : NumErrKind) (* *strconv.NumError *)
  | EthError (text : string)                  (* go-ethereum: HashStruct, HexToECDSA, Sign *)
  | ErrorString (text : string).              (* errors.New *)

(** A Go result pair [(T, error)]: [Ok v] is [(v, nil)], [Err e] is [(_, e)]. *)
Inductive result (A : Type) : Type :=
  | Ok (v : A)
  | Err (e : error).
Arguments Ok {A} v.
Arguments Err {A} e.

(** [errors.New(text)]. *)
Definition errors_New (text : string) : error := ErrorString text.

(** [err.Error()] of an error made by [errors.New]; the texts of the other
    packages' errors are formatted by those packages. *)
Definition Error (e : error) : option string :=
  match e with
  | ErrorString text => Some text
  | _ => None
  end.

(** ** [strings.Join] *)

Fixpoint strings_Join (elems : list string) (sep : string) : string :=
  match elems with
  | [] => ""
  | [s] => s
  | s :: rest => s +:+ sep +:+ strings_Join rest sep
  end.

(** ** [strconv.ParseInt(s, 10, 64)] *)

Definition code (c : ascii) : Z := Z.of_N (N_of_ascii c).

(** The digit value [strconv.ParseUint] gives a byte, before it is compared
    with the base: decimal digits, then letters of either case from 10 on. *)
Definition digit_value (c : ascii) : option Z :=
  let n := code c in
  let l := Z.lor n 32 in
  if (48 <=? n) && (n <=? 57) then Some (n - 48)
  else if (97 <=? l) && (l <=? 122) then Some (l - 97 + 10)
  else None.

Definition maxUint64 : Z := 2 ^ 64 - 1.

(** The loop of [strconv.ParseUint] for base 10 and bit size 64, with the
    accumulator [n] a [uint64]. *)
Fixpoint ParseUint_loop (s : string) (n : Z) : result Z :=
  match s with
  | EmptyString => Ok n
  | String c rest =>
      match digit_value c with
      | None => Err (NumError "ParseUint" "" ErrSyntax)
      | Some d =>
          if 10 <=? d then Err (NumError "ParseUint" "" ErrSyntax)
          else if maxUint64 / 10 + 1 <=? n then Err (NumError "ParseUint" "" ErrRange)
          else
            let n10 := (n * 10) mod 2 ^ 64 in
            let n1 := (n10 + d) mod 2 ^ 64 in
            if (n1 <? n10) || (maxUint64 <? n1)
            then Err (NumError "ParseUint" "" ErrRange)
            else ParseUint_loop rest n1
      end
  end.

(** [strconv.ParseUint(s, 10, 64)]; on a range error Go also returns the
    largest value, which [ParseInt] compares with its cutoff. *)
Definition strconv_ParseUint (s : string) : result Z :=
  match s with
  | EmptyString => Err (NumError "ParseUint" s ErrSyntax)
  | _ =>
      match ParseUint_loop s 0 with
      | Ok n => Ok n
      | Err (NumError f _ k) => Err (NumError f s k)
      | Err e => Err e
      end
  end.

Definition strconv_ParseInt (s : string) : result Z :=
  match s with
  | EmptyString => Err (NumError "ParseInt" s ErrSyntax)
  | String c rest =>
      let neg := Ascii.eqb c "-" in
      let s1 := if Ascii.eqb c "+" || Ascii.eqb c "-" then rest else s in
      let cutoff := 2 ^ 63 in
      match strconv_ParseUint s1 with
      | Err (NumError _ _ ErrRange) => Err (NumError "ParseInt" s ErrRange)
      | Err _ => Err (NumError "ParseInt" s ErrSyntax)
      | Ok un =>
          if negb neg && (cutoff <=? un) then Err (NumError "ParseInt" s ErrRange)
          else if neg && (cutoff <? un) then Err (NumError "ParseInt" s ErrRange)
          else Ok (if neg then - un else un)
      end
  end.

(** ** [hexutil.Encode] *)

Definition hex_digit (n : N) : ascii :=
  match n with
  | 0%N => "0" | 1%N => "1" | 2%N => "2" | 3%N => "3"
  | 4%N => "4" | 5%N => "5" | 6%N => "6" | 7%N => "7"
  | 8%N => "8" | 9%N => "9" | 10%N => "a" | 11%N => "b"
  | 12%N => "c" | 13%N => "d" | 14%N => "e" | _ => "f"
  end%char.

Fixpoint hex_EncodeToString (b : list byte) : string :=
  match b with
  | [] => ""
  | x :: rest =>
      String (hex_digit (Byte.to_N x / 16))
        (String (hex_digit (Byte.to_N x mod 16)) (hex_EncodeToString rest))
  end.

(** [hexutil.Encode(b)]: the hex digits of [b] after the prefix [0x]. *)
Definition hexutil_Encode (b : list byte) : string :=
  "0x" +:+ hex_EncodeToString b.

(** ** [unicode/utf8] *)

Definition char_of (n : Z) : ascii := ascii_of_N (Z.to_N n).

Definition between (lo hi : Z) (c : ascii) : bool :=
  (lo <=? code c) && (code c <=? hi).

(** [utf8.EncodeRune] of a rune that is no surrogate and at most U+10FFFF. *)
Definition utf8_EncodeRune (r : Z) : string :=
  if r <? 0x80 then String (char_of r) ""
  else if r <? 0x800 then
    String (char_of (Z.lor 0xC0 (Z.shiftr r 6)))
      (String (char_of (Z.lor 0x80 (Z.land r 0x3F))) "")
  else if r <? 0x10000 then
    String (char_of (Z.lor 0xE0 (Z.shiftr r 12)))
      (String (char_of (Z.lor 0x80 (Z.land (Z.shiftr r 6) 0x3F)))
        (String (char_of (Z.lor 0x80 (Z.land r 0x3F))) ""))
  else
    String (char_of (Z.lor 0xF0 (Z.shiftr r 18)))
      (String (char_of (Z.lor 0x80 (Z.land (Z.shiftr r 12) 0x3F)))
        (String (char_of (Z.lor 0x80 (Z.land (Z.shiftr r 6) 0x3F)))
          (String (char_of (Z.lor 0x80 (Z.land r 0x3F))) ""))).

(** U+FFFD, [utf8.RuneError]. *)
Definition RuneError : Z := 0xFFFD.

(** The length of the well-formed multi-byte encoding [s] starts with, as
    [utf8.DecodeRune] accepts it; [None] where [DecodeRune] answers
    [(RuneError, 1)]. *)
Definition utf8_rune_size (s : string) : option nat :=
  match s with
  | String c0 (String c1 r1) =>
      if between 0xC2 0xDF c0 then
        if between 0x80 0xBF c1 then Some 2%nat else None
      else if between 0xE0 0xEF c0 then
        let ok1 :=
          if code c0 =? 0xE0 then between 0xA0 0xBF c1
          else if code c0 =? 0xED then between 0x80 0x9F c1
          else between 0x80 0xBF c1 in
        match r1 with
        | String c2 _ => if ok1 && between 0x80 0xBF c2 then Some 3%nat else None
        | EmptyString => None
        end
      else if between 0xF0 0xF4 c0 then
        let ok1 :=
          if code c0 =? 0xF0 then between 0x90 0xBF c1
          else if code c0 =? 0xF4 then between 0x80 0x8F c1
          else between 0x80 0xBF c1 in
        match r1 with
        | String c2 (String c3 _) =>
            if ok1 && between 0x80 0xBF c2 && between 0x80 0xBF c3
            then Some 4%nat else None
        | _ => None
        end
      else None
  | _ => None
  end.

Fixpoint string_take (n : nat) (s : string) : string :=
  match n, s with
  | S n', String c r => String c (string_take n' r)
  | _, _ => ""
  end.

Fixpoint string_drop (n : nat) (s : string) : string :=
  match n, s with
  | S n', String _ r => string_drop n' r
  | _, _ => s
  end.

(** ** [encoding/json]: the syntax of a document *)

(** A JSON value; a number keeps its literal, an object its members in the
    order of the text, duplicates included. *)
#[warnings="-register-all"]
Inductive json : Type :=
  | JNull
  | JBool (b : bool)
  | JNumber (literal : string)
  | JString (s : string)
  | JArray (elems : list json)
  | JObject (members : list (string * json)).

Definition dquote : ascii := char_of 34.
Definition backslash : ascii := char_of 92.

Definition is_space (c : ascii) : bool :=
  (code c =? 32) || (code c =? 9) || (code c =? 13) || (code c =? 10).

Fixpoint skip_space (s : string) : string :=
  match s with
  | String c r => if is_space c then skip_space r else s
  | EmptyString => s
  end.

Definition is_digit (c : ascii) : bool := between 48 57 c.

Fixpoint span_digits (s : string) : string * string :=
  match s with
  | String c r =>
      if is_digit c then let (d, t) := span_digits r in (String c d, t) else ("", s)
  | EmptyString => ("", s)
  end.

(** One or more digits. *)
Definition scan_digits1 (s : string) : option (string * string) :=
  match span_digits s with
  | (EmptyString, _) => None
  | p => Some p
  end.

(** The integer part of a number: a lone [0], or a digit from 1 to 9 and then
    any digits. *)
Definition scan_int (s : string) : option (string * string) :=
  match s with
  | String c r =>
      if Ascii.eqb c "0" then Some ("0", r)
      else if is_digit c then let (d, t) := span_digits r in Some (String c d, t)
      else None
  | EmptyString => None
  end.

Definition scan_frac (s : string) : option (string * string) :=
  match s with
  | String c r =>
      if Ascii.eqb c "." then
        match scan_digits1 r with
        | Some (d, t) => Some (String c d, t)
        | None => None
        end
      else Some ("", s)
  | EmptyString => Some ("", s)
  end.

Definition scan_exp (s : string) : option (string * string) :=
  match s with
  | String c r =>
      if Ascii.eqb c "e" || Ascii.eqb c "E" then
        let (sg, r1) :=
          match r with
          | String c1 r' =>
              if Ascii.eqb c1 "+" || Ascii.eqb c1 "-" then (String c1 "", r') else ("", r)
          | EmptyString => ("", r)
          end in
        match scan_digits1 r1 with
        | Some (d, t) => Some (String c (sg +:+ d), t)
        | None => None
        end
      else Some ("", s)
  | EmptyString => Some ("", s)
  end.

(** A number literal and the text after it. *)
Definition scan_number (s : string) : option (string * string) :=
  let (sg, s1) :=
    match s with
    | String c r => if Ascii.eqb c "-" then ("-", r) else ("", s)
    | EmptyString => ("", s)
    end in
  match scan_int s1 with
  | None => None
  | Some (i, s2) =>
      match scan_frac s2 with
      | None => None
      | Some (f, s3) =>
          match scan_exp s3 with
          | None => None
          | Some (e, s4) => Some (sg +:+ i +:+ f +:+ e, s4)
          end
      end
  end.

Definition hex_value (c : ascii) : option Z :=
  if between 48 57 c then Some (code c - 48)
  else if between 97 102 c then Some (code c - 97 + 10)
  else if between 65 70 c then Some (code c - 65 + 10)
  else None.

(** Four hex digits, as after [\u]. *)
Definition scan_hex4 (s : string) : option (Z * string) :=
  match s with
  | String a (String b (String c (String d r))) =>
      match hex_value a, hex_value b, hex_value c, hex_value d with
      | Some x, Some y, Some z, Some w => Some (((x * 16 + y) * 16 + z) * 16 + w, r)
      | _, _, _, _ => None
      end
  | _ => None
  end.

(** [getu4]: the code unit of a [\uXXXX] escape at the head of [s]. *)
Definition getu4 (s : string) : option (Z * string) :=
  match s with
  | String b (String u r) =>
      if Ascii.eqb b backslash && Ascii.eqb u "u" then scan_hex4 r else None
  | _ => None
  end.

(** The escape after a backslash, within a string literal: the bytes it
    stands for and the text after it.  A surrogate that is not the first of a
    well-formed pair stands for U+FFFD. *)
Definition scan_escape (s : string) : option (string * string) :=
  match s with
  | String c r =>
      if Ascii.eqb c dquote || Ascii.eqb c backslash || Ascii.eqb c "/"
      then Some (String c "", r)
      else if Ascii.eqb c "b" then Some (String (char_of 8) "", r)
      else if Ascii.eqb c "f" then Some (String (char_of 12) "", r)
      else if Ascii.eqb c "n" then Some (String (char_of 10) "", r)
      else if Ascii.eqb c "r" then Some (String (char_of 13) "", r)
      else if Ascii.eqb c "t" then Some (String (char_of 9) "", r)
      else if Ascii.eqb c "u" then
        match scan_hex4 r with
        | None => None
        | Some (rr, r1) =>
            if (0xD800 <=? rr) && (rr <? 0xE000) then
              match getu4 r1 with
              | Some (rr1, r2) =>
                  if (rr <? 0xDC00) && (0xDC00 <=? rr1) && (rr1 <? 0xE000)
                  then Some (utf8_EncodeRune
                               (Z.lor (Z.shiftl (rr - 0xD800) 10) (rr1 - 0xDC00) + 0x10000), r2)
                  else Some (utf8_EncodeRune RuneError, r1)
              | None => Some (utf8_EncodeRune RuneError, r1)
              end
            else Some (utf8_EncodeRune rr, r1)
        end
      else None
  | EmptyString => None
  end.

(** The rest of a string literal after its opening quote: its unquoted
    content and the text after the closing quote.  Each step takes at least
    one byte, so the length of [s] is enough [fuel]. *)
Fixpoint scan_string (fuel : nat) (s : string) : option (string * string) :=
  match fuel with
  | O => None
  | S fuel' =>
      match s with
      | EmptyString => None
      | String c r =>
          if Ascii.eqb c dquote then Some ("", r)
          else if Ascii.eqb c backslash then
            match scan_escape r with
            | None => None
            | Some (out, r1) =>
                match scan_string fuel' r1 with
                | None => None
                | Some (str, t) => Some (out +:+ str, t)
                end
            end
          else if code c <? 0x20 then None
          else if code c <? 0x80 then
            match scan_string fuel' r with
            | None => None
            | Some (str, t) => Some (String c str, t)
            end
          else
            let (out, r1) :=
              match utf8_rune_size s with
              | Some n => (string_take n s, string_drop n s)
              | None => (utf8_EncodeRune RuneError, r)
              end in
            match scan_string fuel' r1 with
            | None => None
            | Some (str, t) => Some (out +:+ str, t)
            end
      end
  end.

(** The scanner's bound on the nesting of arrays and objects. *)
Definition maxNestingDepth : N := 10000.

Definition starts_with (p s : string) : option string :=
  if String.prefix p s then Some (string_drop (String.length p) s) else None.

(** A string, a literal name or a number at the head of [s]. *)
Definition parse_scalar (s : string) : option (json * string) :=
  match s with
  | EmptyString => None
  | String c r =>
      if Ascii.eqb c dquote then
        match scan_string (String.length r) r with
        | Some (str, t) => Some (JString str, t)
        | None => None
        end
      else if Ascii.eqb c "t" then option_map (pair (JBool true)) (starts_with "true" s)
      else if Ascii.eqb c "f" then option_map (pair (JBool false)) (starts_with "false" s)
      else if Ascii.eqb c "n" then option_map (pair JNull) (starts_with "null" s)
      else
        match scan_number s with
        | Some (lit, t) => Some (JNumber lit, t)
        | None => None
        end
  end.

(** The bracket that closes an array or object with nothing in it. *)
Definition scan_close (close : ascii) (s : string) : option string :=
  match skip_space s with
  | String c r => if Ascii.eqb c close then Some r else None
  | EmptyString => None
  end.

(** What follows a value in an array or object: a comma ([true]) or the
    closing bracket ([false]). *)
Definition scan_sep (close : ascii) (s : string) : option (bool * string) :=
  match skip_space s with
  | String c r =>
      if Ascii.eqb c "," then Some (true, r)
      else if Ascii.eqb c close then Some (false, r)
      else None
  | EmptyString => None
  end.

(** The key of a member, with the colon after it. *)
Definition scan_key (s : string) : option (string * string) :=
  match skip_space s with
  | String c r =>
      if Ascii.eqb c dquote then
        match scan_string (String.length r) r with
        | Some (key, t) =>
            match skip_space t with
            | String c1 t1 => if Ascii.eqb c1 ":" then Some (key, t1) else None
            | EmptyString => None
            end
        | None => None
        end
      else None
  | EmptyString => None
  end.

(** A value with the space before it; [depth] counts the arrays and objects
    that are open. *)
Fixpoint parse_value (fuel : nat) (depth : N) (s : string) {struct fuel}
  : option (json * string) :=
  match fuel with
  | O => None
  | S fuel' =>
      match skip_space s with
      | EmptyString => None
      | String c r as s' =>
          if Ascii.eqb c "{" then
            if (depth <? maxNestingDepth)%N then
              match scan_close "}" r with
              | Some t => Some (JObject [], t)
              | None => parse_members fuel' (N.succ depth) r []
              end
            else None
          else if Ascii.eqb c "[" then
            if (depth <? maxNestingDepth)%N then
              match scan_close "]" r with
              | Some t => Some (JArray [], t)
              | None => parse_elements fuel' (N.succ depth) r []
              end
            else None
          else parse_scalar s'
      end
  end

(** The elements of an array from an element on, [acc] those before it in
    reverse. *)
with parse_elements (fuel : nat) (depth : N) (s : string) (acc : list json) {struct fuel}
  : option (json * string) :=
  match fuel with
  | O => None
  | S fuel' =>
      match parse_value fuel' depth s with
      | None => None
      | Some (v, t) =>
          match scan_sep "]" t with
          | Some (true, r) => parse_elements fuel' depth r (v :: acc)
          | Some (false, r) => Some (JArray (rev (v :: acc)), r)
          | None => None
          end
      end
  end

(** The members of an object from a key on. *)
with parse_members (fuel : nat) (depth : N) (s : string) (acc : list (string * json))
  {struct fuel} : option (json * string) :=
  match fuel with
  | O => None
  | S fuel' =>
      match scan_key s with
      | None => None
      | Some (key, t1) =>
          match parse_value fuel' depth t1 with
          | None => None
          | Some (v, t2) =>
              match scan_sep "}" t2 with
              | Some (true, r) => parse_members fuel' depth r ((key, v) :: acc)
              | Some (false, r) => Some (JObject (rev ((key, v) :: acc)), r)
              | None => None
              end
          end
      end
  end.

(** The document a body holds: one value, with nothing but space around it.
    [None] is the body [json.Unmarshal] rejects with a [*SyntaxError].  The
    length of a text is enough fuel to parse a value at its head. *)
Definition json_parse (body : string) : option json :=
  match parse_value (String.length body) 0%N body with
  | Some (v, rest) =>
      match skip_space rest with
      | EmptyString => Some v
      | _ => None
      end
  | None => None
  end.

(** Single quotes written for double quotes, to write a JSON text down. *)
Fixpoint q (s : string) : string :=
  match s with
  | EmptyString => EmptyString
  | String c r => String (if Ascii.eqb c "'" then dquote else c) (q r)
  end.

(** ** [encoding/json]: decoding a document into a struct *)

(** The [Value] of the [*UnmarshalTypeError] for a JSON value that does not
    fit the Go type it is stored in. *)
Definition json_kind (j : json) : string :=
  match j with
  | JNull => "null"
  | JBool _ => "bool"
  | JNumber _ => "number"
  | JString _ => "string"
  | JArray _ => "array"
  | JObject _ => "object"
  end.

(** The decoder keeps the first error and goes on. *)
Definition saveError (saved e : option error) : option error :=
  match saved with
  | Some _ => saved
  | None => e
  end.

(** Storing a JSON value in a Go [string] that holds [cur]: [null] leaves it
    as it is, and so does a value of another type, which is an error. *)
Definition store_string (j : json) (cur : string) : string * option error :=
  match j with
  | JString s => (s, None)
  | JNull => (cur, None)
  | _ => (cur, Some (UnmarshalTypeError (json_kind j) "string"))
  end.

(** Storing a JSON value in an [int64]: the literal of a number goes through
    [strconv.ParseInt]. *)
Definition store_int64 (j : json) (cur : Z) : Z * option error :=
  match j with
  | JNumber lit =>
      match strconv_ParseInt lit with
      | Ok n => (n, None)
      | Err _ => (cur, Some (UnmarshalTypeError ("number " +:+ lit) "int64"))
      end
  | JNull => (cur, None)
  | _ => (cur, Some (UnmarshalTypeError (json_kind j) "int64"))
  end.

(** The elements of an array stored in a [[]string]: element [i] is stored in
    the element the slice has at [i], or in an empty string when the slice is
    shorter (the spare capacity a slice may keep from an earlier, longer value
    is not modelled). *)
Fixpoint store_elems (elems : list json) (cur : list string)
  : list string * option error :=
  match elems with
  | [] => ([], None)
  | j :: rest =>
      let (x, e) := store_string j (hd "" cur) in
      let (xs, e') := store_elems rest (tl cur) in
      (x :: xs, saveError e e')
  end.

Definition store_strings (j : json) (cur : list string)
  : list string * option error :=
  match j with
  | JArray elems => store_elems elems cur
  | JNull => ([], None)
  | _ => (cur, Some (UnmarshalTypeError (json_kind j) "[]string"))
  end.

(** A field of a struct type: its name in JSON and how a value is stored
    in it. *)
Record field (S : Type) : Type := mkField {
  field_name : string;
  field_store : json -> S -> S * option error
}.
Arguments mkField {S} _ _.
Arguments field_name {S} _.
Arguments field_store {S} _ _ _.

Record StructType (S : Type) : Type := mkStructType {
  type_name : string;
  fields : list (field S);
  zero : S
}.
Arguments mkStructType {S} _ _ _.
Arguments type_name {S} _.
Arguments fields {S} _.
Arguments zero {S} _.

(** The folded form of a key: letters in upper case, the Kelvin sign and the
    long s as the letters [K] and [S] they fold to.  Two names match without
    regard to case when their folded forms are equal; the other bytes beyond
    ASCII stay as they are, which is exact against the names of the structs of
    this program, all ASCII. *)
Fixpoint foldName (s : string) : string :=
  match s with
  | EmptyString => EmptyString
  | String c r =>
      if between 97 122 c then String (char_of (code c - 32)) (foldName r)
      else
        match r with
        | String c1 r1 =>
            if (code c =? 0xC5) && (code c1 =? 0xBF) then String "S" (foldName r1)
            else
              match r1 with
              | String c2 r2 =>
                  if (code c =? 0xE2) && (code c1 =? 0x84) && (code c2 =? 0xAA)
                  then String "K" (foldName r2)
                  else String c (foldName r)
              | EmptyString => String c (foldName r)
              end
        | EmptyString => String c (foldName r)
        end
  end.

Fixpoint find_exact {S} (key : string) (fs : list (field S)) : option (field S) :=
  match fs with
  | [] => None
  | f :: rest => if String.eqb (field_name f) key then Some f else find_exact key rest
  end.

Fixpoint find_fold {S} (key : string) (fs : list (field S)) : option (field S) :=
  match fs with
  | [] => None
  | f :: rest =>
      if String.eqb (foldName (field_name f)) (foldName key) then Some f
      else find_fold key rest
  end.

(** The field a key stands for: the one of that very name, else the first
    one that matches without regard to case. *)
Definition find_field {S} (key : string) (fs : list (field S)) : option (field S) :=
  match find_exact key fs with
  | Some f => Some f
  | None => find_fold key fs
  end.

(** The members of an object, in order; the value of a key that names no
    field is skipped. *)
Fixpoint decode_members {S} (fs : list (field S)) (members : list (string * json))
    (v : S) (saved : option error) : S * option error :=
  match members with
  | [] => (v, saved)
  | (key, j) :: rest =>
      match find_field key fs with
      | Some f =>
          let (v', e) := field_store f j v in
          decode_members fs rest v' (saveError saved e)
      | None => decode_members fs rest v saved
      end
  end.

(** A document decoded into a struct that holds [v]. *)
Definition decode_struct {S} (ty : StructType S) (j : json) (v : S) : result S :=
  match j with
  | JObject members =>
      match decode_members (fields ty) members v None with
      | (v', None) => Ok v'
      | (_, Some e) => Err e
      end
  | JNull => Ok v
  | _ => Err (UnmarshalTypeError (json_kind j) (type_name ty))
  end.

(** [json.Unmarshal(body, &v)], with the value [v] holds after it: the syntax
    of the whole body is checked first. *)
Definition json_Unmarshal {S} (ty : StructType S) (body : string) (v : S) : result S :=
  match json_parse body with
  | None => Err SyntaxError
  | Some j => decode_struct ty j v
  end.

(** ** The JSON structs of [main.go] *)

Module safeNonceResponse.
Record t : Type := mk {
  Address : string;
  Nonce : Z;
  Threshold : Z;
  Owners : list string;
  MasterCopy : string;
  Modules : list string;
  FallbackHandler : string;
  Guard : string;
  Version : string
}.

Definition set_Address x d := let '(mk _ n t o m ms f g v) := d in mk x n t o m ms f g v.
Definition set_Nonce x d := let '(mk a _ t o m ms f g v) := d in mk a x t o m ms f g v.
Definition set_Threshold x d := let '(mk a n _ o m ms f g v) := d in mk a n x o m ms f g v.
Definition set_Owners x d := let '(mk a n t _ m ms f g v) := d in mk a n t x m ms f g v.
Definition set_MasterCopy x d := let '(mk a n t o _ ms f g v) := d in mk a n t o x ms f g v.
Definition set_Modules x d := let '(mk a n t o m _ f g v) := d in mk a n t o m x f g v.
Definition set_FallbackHandler x d := let '(mk a n t o m ms _ g v) := d in mk a n t o m ms x g v.
Definition set_Guard x d := let '(mk a n t o m ms f _ v) := d in mk a n t o m ms f x v.
Definition set_Version x d := let '(mk a n t o m ms f g _) := d in mk a n t o m ms f g x.

(** A field stored through its getter and setter. *)
Definition via {A} (store : json -> A -> A * option error)
    (get : t -> A) (set : A -> t -> t) (j : json) (d : t) : t * option error :=
  let (x, e) := store j (get d) in (set x d, e).

Definition type : StructType t :=
  mkStructType "main.safeNonceResponse"
    [ mkField "address" (via store_string Address set_Address);
      mkField "nonce" (via store_int64 Nonce set_Nonce);
      mkField "threshold" (via store_int64 Threshold set_Threshold);
      mkField "owners" (via store_strings Owners set_Owners);
      mkField "masterCopy" (via store_string MasterCopy set_MasterCopy);
      mkField "modules" (via store_strings Modules set_Modules);
      mkField "fallbackHandler" (via store_string FallbackHandler set_FallbackHandler);
      mkField "guard" (via store_string Guard set_Guard);
      mkField "version" (via store_string Version set_Version) ]
    (mk "" 0 0 [] "" [] "" "" "").
End safeNonceResponse.

Module gasEstimationRequest.
Record t : Type := mk {
  To : string;
  Value : Z;
  Data : option string;
  Operation : Z;
  GasToken : option string
}.
End gasEstimationRequest.

Module gasEstimationResponse.
Record t : Type := mk {
  SafeTxGas : string;
  BaseGas : string;
  DataGas : string;
  OperationalGas : string;
  GasPrice : string;
  LastUsedNonce : Z;
  GasToken : string;
  RefundReceiver : string
}.

Definition set_SafeTxGas x d := let '(mk _ b dg o p l g r) := d in mk x b dg o p l g r.
Definition set_BaseGas x d := let '(mk s _ dg o p l g r) := d in mk s x dg o p l g r.
Definition set_DataGas x d := let '(mk s b _ o p l g r) := d in mk s b x o p l g r.
Definition set_OperationalGas x d := let '(mk s b dg _ p l g r) := d in mk s b dg x p l g r.
Definition set_GasPrice x d := let '(mk s b dg o _ l g r) := d in mk s b dg o x l g r.
Definition set_LastUsedNonce x d := let '(mk s b dg o p _ g r) := d in mk s b dg o p x g r.
Definition set_GasToken x d := let '(mk s b dg o p l _ r) := d in mk s b dg o p l x r.
Definition set_RefundReceiver x d := let '(mk s b dg o p l g _) := d in mk s b dg o p l g x.

Definition via {A} (store : json -> A -> A * option error)
    (get : t -> A) (set : A -> t -> t) (j : json) (d : t) : t * option error :=
  let (x, e) := store j (get d) in (set x d, e).

Definition type : StructType t :=
  mkStructType "main.gasEstimationResponse"
    [ mkField "safeTxGas" (via store_string SafeTxGas set_SafeTxGas);
      mkField "baseGas" (via store_string BaseGas set_BaseGas);
      mkField "dataGas" (via store_string DataGas set_DataGas);
      mkField "operationalGas" (via store_string OperationalGas set_OperationalGas);
      mkField "gasPrice" (via store_string GasPrice set_GasPrice);
      mkField "lastUsedNonce" (via store_int64 LastUsedNonce set_LastUsedNonce);
      mkField "gasToken" (via store_string GasToken set_GasToken);
      mkField "refundReceiver" (via store_string RefundReceiver set_RefundReceiver) ]
    (mk "" "" "" "" "" 0 "" "").
End gasEstimationResponse.

Module gnosisTxRequest.
Record t : Type := mk {
  To : string;
  Value : Z;
  Data : option string;
  Operation : Z;
  GasToken : string;
  SafeTxGas : Z;
  BaseGas : Z;
  GasPrice : Z;
  RefundReceiver : string;
  Nonce : Z;
  ContractTransactionHash : string;
  Sender : string;
  Signature : string;
  Origin : option string
}.
End gnosisTxRequest.

Module gnosisTxErrResponse.
Record t : Type := mk {
  NonFieldErrors : list string
}.

Definition type : StructType t :=
  mkStructType "main.gnosisTxErrResponse"
    [ mkField "nonFieldErrors"
        (fun j d => let (x, e) := store_strings j (NonFieldErrors d) in (mk x, e)) ]
    (mk []).
End gnosisTxErrResponse.

(** ** The world: requests, responses, events *)

Inductive Request : Type :=
  | GET (url : string)
  | POST (url contentType body : string).

(** An argument of [fmt.Println]; of a pointer the address is printed, which
    is left open. *)
Inductive PrintArg : Type :=
  | PString (s : string)
  | PInt64 (n : Z)
  | PPointer.

(** What a run does to the world, in order. *)
Inductive Event : Type :=
  | EvRequest (r : Request)          (* http.Get, http.Post *)
  | EvReadAll                        (* ioutil.ReadAll(resp.Body) *)
  | EvPrintln (args : list PrintArg). (* fmt.Println *)

(** An [*http.Response]: [Body] is what reading the body to its end gives. *)
Record Response : Type := mkResponse {
  StatusCode : Z;
  Body : result string
}.

(** The transport and the coordination service behind it: the answer to a
    request, given all that happened before it. *)
Definition Network : Type := list Event -> Request -> result Response.

Definition http_StatusOK : Z := 200.

(** ** Computations *)

(** A call returns, with a value or with an error, or it panics. *)
Inductive outcome (A : Type) : Type :=
  | Return (r : result A)
  | Panic (msg : string).
Arguments Return {A} r.
Arguments Panic {A} msg.

(** A computation: from the history to its outcome and its own events. *)
Definition M (A : Type) : Type := list Event -> outcome A * list Event.

Definition ret {A} (v : A) : M A := fun _ => (Return (Ok v), []).

Definition lift {A} (o : outcome A) : M A := fun _ => (o, []).

Definition bind {A B} (m : M A) (k : A -> M B) : M B :=
  fun h =>
    match m h with
    | (Return (Ok v), evs) => let (o, evs') := k v (h ++ evs) in (o, evs ++ evs')
    | (Return (Err e), evs) => (Return (Err e), evs)
    | (Panic msg, evs) => (Panic msg, evs)
    end.

Notation "x <- m ;; k" := (bind m (fun x => k))
  (at level 100, m at next level, right associativity).

Definition http_Get (net : Network) (url : string) : M Response :=
  fun h => (Return (net h (GET url)), [EvRequest (GET url)]).

Definition http_Post (net : Network) (url contentType body : string) : M Response :=
  fun h => (Return (net h (POST url contentType body)),
            [EvRequest (POST url contentType body)]).

Definition ioutil_ReadAll (body : result string) : M string :=
  fun _ => (Return body, [EvReadAll]).

Definition fmt_Println (args : list PrintArg) : M unit :=
  fun _ => (Return (Ok tt), [EvPrintln args]).

(** ** The go-ethereum types *)

(** [common.Hash], a [[32]byte]. *)
Record Hash : Type := mkHash {
  Hash_Bytes : list byte;
  Hash_length : length Hash_Bytes = 32%nat
}.

(** [h.Hex()]. *)
Definition Hash_Hex (h : Hash) : string := hexutil_Encode (Hash_Bytes h).

(** [core.GnosisSafeTx], the fields [sendTransaction] sets. *)
Module GnosisSafeTx.
Record t (Address MixedcaseAddress : Type) : Type := mk {
  Sender : MixedcaseAddress;
  Safe : MixedcaseAddress;
  To : MixedcaseAddress;
  Value : Z;
  GasPrice : Z;
  Data : option (list byte);
  Operation : Z;
  GasToken : Address;
  RefundReceiver : Address;
  BaseGas : Z;
  SafeTxGas : Z;
  Nonce : Z
}.
Arguments mk {Address MixedcaseAddress}.
Arguments Sender {Address MixedcaseAddress}.
Arguments Safe {Address MixedcaseAddress}.
Arguments To {Address MixedcaseAddress}.
Arguments Value {Address MixedcaseAddress}.
Arguments GasPrice {Address MixedcaseAddress}.
Arguments Data {Address MixedcaseAddress}.
Arguments Operation {Address MixedcaseAddress}.
Arguments GasToken {Address MixedcaseAddress}.
Arguments RefundReceiver {Address MixedcaseAddress}.
Arguments BaseGas {Address MixedcaseAddress}.
Arguments SafeTxGas {Address MixedcaseAddress}.
Arguments Nonce {Address MixedcaseAddress}.
End GnosisSafeTx.

(** The library functions that are taken as given: the JSON text of the two
    request structs, and of go-ethereum the address conversions, the typed
    data of a Safe transaction with its struct hash, Keccak-256, the parsing
    of a private key and the signature, 65 bytes long. *)
Class Library : Type := {
  encode_gasEstimationRequest : gasEstimationRequest.t -> string;
  encode_gnosisTxRequest : gnosisTxRequest.t -> string;
  Address : Type;
  MixedcaseAddress : Type;
  common_HexToAddress : string -> Address;
  common_NewMixedcaseAddress : Address -> MixedcaseAddress;
  TypedData : Type;
  TypedDataMessage : Type;
  ToTypedData : GnosisSafeTx.t Address MixedcaseAddress -> TypedData;
  Domain_Map : TypedData -> TypedDataMessage;
  PrimaryType : TypedData -> string;
  Message : TypedData -> TypedDataMessage;
  HashStruct : TypedData -> string -> TypedDataMessage -> result (list byte);
  PrivateKey : Type;
  crypto_Keccak256Hash : list byte -> Hash;
  crypto_HexToECDSA : string -> result PrivateKey;
  crypto_Sign : list byte -> PrivateKey -> result (list byte);
  crypto_Sign_length : forall digest key sig,
    crypto_Sign digest key = Ok sig -> length sig = 65%nat
}.

(** [json.Marshal(v)] of a struct of strings, integers and nil pointers: it
    returns the text with no error. *)
Definition json_Marshal {T} (encode : T -> string) (v : T) : result string :=
  Ok (encode v).

(** ** [main.go] *)

Definition ZERO_ADDR : string := "0x0000000000000000000000000000000000000000".

Definition getSafeNonce (net : Network) (safe : string) : M Z :=
  resp <- http_Get net ("https://safe-transaction.rinkeby.gnosis.io/api/v1/safes/" +:+ safe) ;;
  body <- ioutil_ReadAll (Body resp) ;;
  data <- lift (Return (json_Unmarshal safeNonceResponse.type body
                          (zero safeNonceResponse.type))) ;;
  ret (safeNonceResponse.Nonce data).

(** [uint8] addition. *)
Definition byte_add (v : byte) (n : N) : byte :=
  match Byte.of_N ((Byte.to_N v + n) mod 256) with
  | Some b => b
  | None => x00
  end.

(** Lines 239 to 241 of [sendTransaction]: the last byte of the signature,
    where it is 0 or 1, is raised by 27, in place.  Indexing a slice shorter
    than 65 bytes panics. *)
Definition normalizeRecoveryId (signature : list byte) : outcome (list byte) :=
  match signature !! 64%nat with
  | None => Panic "index out of range [64]"
  | Some v =>
      if Byte.eqb v x00 || Byte.eqb v x01
      then Return (Ok (<[64%nat := byte_add v 27]> signature))
      else Return (Ok signature)
  end.

Section Program.
Context {lib : Library}.
Variable net : Network.

Definition getGasEstimation (to safe : string) (value : Z) : M Z :=
  let request :=
    {| gasEstimationRequest.To := to;
       gasEstimationRequest.Value := value;
       gasEstimationRequest.Data := None;
       gasEstimationRequest.Operation := 0;
       gasEstimationRequest.GasToken := None |} in
  req <- lift (Return (json_Marshal encode_gasEstimationRequest request)) ;;
  resp <- http_Post net
            ("https://safe-relay.rinkeby.gnosis.io/api/v2/safes/" +:+ safe
               +:+ "/transactions/estimate/")
            "application/json" req ;;
  body <- ioutil_ReadAll (Body resp) ;;
  data <- lift (Return (json_Unmarshal gasEstimationResponse.type body
                          (zero gasEstimationResponse.type))) ;;
  safeTxGas <- lift (Return (strconv_ParseInt (gasEstimationResponse.SafeTxGas data))) ;;
  ret safeTxGas.

Definition sendGnosisTx (from to safe : string) (amount safeTxGas nonce : Z)
    (hash signature : string) : M unit :=
  let request :=
    {| gnosisTxRequest.To := to;
       gnosisTxRequest.Value := amount;
       gnosisTxRequest.Data := None;
       gnosisTxRequest.Operation := 0;
       gnosisTxRequest.GasToken := ZERO_ADDR;
       gnosisTxRequest.SafeTxGas := safeTxGas;
       gnosisTxRequest.BaseGas := 0;
       gnosisTxRequest.GasPrice := 0;
       gnosisTxRequest.RefundReceiver := ZERO_ADDR;
       gnosisTxRequest.Nonce := nonce;
       gnosisTxRequest.ContractTransactionHash := hash;
       gnosisTxRequest.Sender := from;
       gnosisTxRequest.Signature := signature;
       gnosisTxRequest.Origin := None |} in
  req <- lift (Return (json_Marshal encode_gnosisTxRequest request)) ;;
  resp <- http_Post net
            ("https://safe-transaction.rinkeby.gnosis.io/api/v1/safes/" +:+ safe
               +:+ "/multisig-transactions/")
            "application/json" req ;;
  if StatusCode resp =? http_StatusOK then ret tt
  else
    body <- ioutil_ReadAll (Body resp) ;;
    data <- lift (Return (json_Unmarshal gnosisTxErrResponse.type body
                            (zero gnosisTxErrResponse.type))) ;;
    lift (Return (Err (errors_New
                         (strings_Join (gnosisTxErrResponse.NonFieldErrors data)
                            (String (char_of 10) ""))))).

(** Lines 194 to 207 of [sendTransaction]: the transaction that is hashed. *)
Definition gnosisSafeTx (from to safe : string) (amount safeTxGas nonce : Z)
  : GnosisSafeTx.t Address MixedcaseAddress :=
  {| GnosisSafeTx.Sender := common_NewMixedcaseAddress (common_HexToAddress from);
     GnosisSafeTx.Safe := common_NewMixedcaseAddress (common_HexToAddress safe);
     GnosisSafeTx.To := common_NewMixedcaseAddress (common_HexToAddress to);
     GnosisSafeTx.Value := amount;
     GnosisSafeTx.GasPrice := 0;
     GnosisSafeTx.Data := Some [];
     GnosisSafeTx.Operation := 0;
     GnosisSafeTx.GasToken := common_HexToAddress ZERO_ADDR;
     GnosisSafeTx.RefundReceiver := common_HexToAddress ZERO_ADDR;
     GnosisSafeTx.BaseGas := 0;
     GnosisSafeTx.SafeTxGas := safeTxGas;
     GnosisSafeTx.Nonce := nonce |}.

(** Lines 209 to 224 of [sendTransaction]: the digest of a transaction. *)
Definition encodedTxHash (tx : GnosisSafeTx.t Address MixedcaseAddress) : result Hash :=
  let typedData := ToTypedData tx in
  match HashStruct typedData "EIP712Domain" (Domain_Map typedData) with
  | Err err => Err err
  | Ok domainHash =>
      match HashStruct typedData (PrimaryType typedData) (Message typedData) with
      | Err err => Err err
      | Ok primaryTypeHash =>
          let encodedTx := [x01; x13] in (* []byte{1, 19} *)
          let encodedTx := encodedTx ++ domainHash in
          let encodedTx := encodedTx ++ primaryTypeHash in
          Ok (crypto_Keccak256Hash encodedTx)
      end
  end.

Definition sendTransaction (from to safe : string) (amount : Z) (privKey : string)
  : M unit :=
  (* get current safe nonce *)
  nonce <- getSafeNonce net safe ;;
  _ <- fmt_Println [PString "nonce:"; PInt64 nonce] ;;
  (* get gas estimation *)
  safeTxGas <- getGasEstimation to safe amount ;;
  _ <- fmt_Println [PString "safeTxGas:"; PPointer] ;;
  (* get contract transaction hash *)
  encodedTxHash <- lift (Return (encodedTxHash
                           (gnosisSafeTx from to safe amount safeTxGas nonce))) ;;
  _ <- fmt_Println [PString "encodedTxHash:"; PString (Hash_Hex encodedTxHash)] ;;
  (* sign *)
  privateKey <- lift (Return (crypto_HexToECDSA privKey)) ;;
  signature <- lift (Return (crypto_Sign (Hash_Bytes encodedTxHash) privateKey)) ;;
  signature <- lift (normalizeRecoveryId signature) ;;
  (* send transaction to gnosis *)
  sendGnosisTx from to safe amount safeTxGas nonce
    (Hash_Hex encodedTxHash) (hexutil_Encode signature).
End Program.

(** ** Notions the statements use *)

Definition LF : string := String (char_of 10) "".

Definition nonce_url (safe : string) : string :=
  "https://safe-transaction.rinkeby.gnosis.io/api/v1/safes/" +:+ safe.

Definition estimate_url (safe : string) : string :=
  "https://safe-relay.rinkeby.gnosis.io/api/v2/safes/" +:+ safe +:+ "/transactions/estimate/".

Definition submit_url (safe : string) : string :=
  "https://safe-transaction.rinkeby.gnosis.io/api/v1/safes/" +:+ safe
    +:+ "/multisig-transactions/".

(** The requests the program sends. *)
Section Requests.
Context {lib : Library}.

(** The request [getGasEstimation] builds. *)
Definition estimate_request (to : string) (value : Z) : gasEstimationRequest.t :=
  {| gasEstimationRequest.To := to;
     gasEstimationRequest.Value := value;
     gasEstimationRequest.Data := None;
     gasEstimationRequest.Operation := 0;
     gasEstimationRequest.GasToken := None |}.

Definition estimate_post (to safe : string) (value : Z) : Request :=
  POST (estimate_url safe) "application/json"
    (encode_gasEstimationRequest (estimate_request to value)).

(** The proposal [sendGnosisTx] builds. *)
Definition proposal (from to : string) (amount safeTxGas nonce : Z)
    (hash signature : string) : gnosisTxRequest.t :=
  {| gnosisTxRequest.To := to;
     gnosisTxRequest.Value := amount;
     gnosisTxRequest.Data := None;
     gnosisTxRequest.Operation := 0;
     gnosisTxRequest.GasToken := ZERO_ADDR;
     gnosisTxRequest.SafeTxGas := safeTxGas;
     gnosisTxRequest.BaseGas := 0;
     gnosisTxRequest.GasPrice := 0;
     gnosisTxRequest.RefundReceiver := ZERO_ADDR;
     gnosisTxRequest.Nonce := nonce;
     gnosisTxRequest.ContractTransactionHash := hash;
     gnosisTxRequest.Sender := from;
     gnosisTxRequest.Signature := signature;
     gnosisTxRequest.Origin := None |}.

Definition submit_post (from to safe : string) (amount safeTxGas nonce : Z)
    (hash signature : string) : Request :=
  POST (submit_url safe) "application/json"
    (encode_gnosisTxRequest (proposal from to amount safeTxGas nonce hash signature)).
End Requests.

(** The byte two hex digits write, as [hex.DecodeString] reads them. *)
Definition hex_digit_value (c : ascii) : N :=
  let n := N_of_ascii c in
  if (n <? 58)%N then (n - 48)%N else (n - 87)%N.

Definition hex_byte (hi lo : ascii) : option byte :=
  Byte.of_N (hex_digit_value hi * 16 + hex_digit_value lo).

(** The body of the last POST among the events of a run. *)
Fixpoint last_post_body (evs : list Event) : option string :=
  match evs with
  | [] => None
  | ev :: rest =>
      match last_post_body rest with
      | Some b => Some b
      | None =>
          match ev with
          | EvRequest (POST _ _ body) => Some body
          | _ => None
          end
      end
  end.

(** The requests among the events of a run, in order. *)
Definition requests (evs : list Event) : list Request :=
  omap (fun ev => match ev with EvRequest r => Some r | _ => None end) evs.

(** The digest a run prints, once it has one. *)
Fixpoint printed_digest (evs : list Event) : option string :=
  match evs with
  | [] => None
  | EvPrintln [PString label; PString hex] :: rest =>
      if String.eqb label "encodedTxHash:" then Some hex else printed_digest rest
  | _ :: rest => printed_digest rest
  end.

(** No member of an object names the field [name], with or without regard
    to case. *)
Definition lacks_field (name : string) (members : list (string * json)) : bool :=
  forallb (fun m => negb (String.eqb (foldName (fst m)) (foldName name))) members.

(** How a request whose answer is decoded into the struct type [ty] fails
    with [e]: the transport fails, the body cannot be read, the body is no
    JSON document, or the document does not fit the struct. *)
Inductive fetch_failure {S} (net : Network) (h : list Event) (req : Request)
    (ty : StructType S) (e : error) : Prop :=
  | TransportFailure :
      net h req = Err e -> fetch_failure net h req ty e
  | UnreadableBody resp :
      net h req = Ok resp -> Body resp = Err e -> fetch_failure net h req ty e
  | NotJSON resp body :
      net h req = Ok resp -> Body resp = Ok body ->
      json_parse body = None -> e = SyntaxError ->
      fetch_failure net h req ty e
  | SchemaMismatch resp body j value type_ :
      net h req = Ok resp -> Body resp = Ok body ->
      json_parse body = Some j -> decode_struct ty j (zero ty) = Err e ->
      e = UnmarshalTypeError value type_ ->
      fetch_failure net h req ty e.

(** The errors of the fields of a struct type are type errors. *)
Definition type_errors_only {S} (ty : StructType S) : Prop :=
  forall f, In f (fields ty) ->
  forall j d d' e, field_store f j d = (d', Some e) ->
  exists v t, e = UnmarshalTypeError v t.

(** Events that print nothing. *)
Definition silent (evs : list Event) : bool :=
  forallb (fun ev => match ev with EvPrintln _ => false | _ => true end) evs.

(** The first two steps of [sendTransaction]: what a run fetches. *)
Definition fetch {lib : Library} (net : Network) (to safe : string) (amount : Z) : M (Z * Z) :=
  nonce <- getSafeNonce net safe ;;
  _ <- fmt_Println [PString "nonce:"; PInt64 nonce] ;;
  safeTxGas <- getGasEstimation net to safe amount ;;
  ret (nonce, safeTxGas).

(** A network that answers as [net] does, with the status codes changed. *)
Definition with_status (f : Z -> Z) (net : Network) : Network :=
  fun h r =>
    match net h r with
    | Ok resp => Ok (mkResponse (f (StatusCode resp)) (Body resp))
    | Err e => Err e
    end.

(** The success class of HTTP status codes, 2xx. *)
Definition is_success_status (status : Z) : bool :=
  (200 <=? status) && (status <? 300).

Fixpoint all_digits (s : string) : bool :=
  match s with
  | EmptyString => true
  | String c r => is_digit c && all_digits r
  end.

(** Base 10, read digit by digit. *)
Fixpoint digits_value (s : string) (acc : Z) : Z :=
  match s with
  | EmptyString => acc
  | String c r => digits_value r (acc * 10 + (code c - 48))
  end.

(** The integer a string writes in base 10: an optional sign, then one or
    more decimal digits. *)
Definition base10_integer (s : string) : option Z :=
  match s with
  | EmptyString => None
  | String c r =>
      let body := if Ascii.eqb c "+" || Ascii.eqb c "-" then r else s in
      match body with
      | EmptyString => None
      | _ =>
          if all_digits body
          then Some (if Ascii.eqb c "-" then - digits_value body 0 else digits_value body 0)
          else None
      end
  end.

(** The orchestrator as the linear machine
    [FetchNonce -> EstimateGas -> BuildDigest -> Sign -> Submit -> Done]:
    the outcome and the events of a run from history [h].  A step that fails
    ends the run with its error and the events up to it. *)
Section LinearRun.
Context {lib : Library}.
Variable net : Network.
Variables from to safe : string.
Variable amount : Z.
Variable privKey : string.
Variable h : list Event.

Definition println_nonce (nonce : Z) : Event := EvPrintln [PString "nonce:"; PInt64 nonce].
Definition println_safeTxGas : Event := EvPrintln [PString "safeTxGas:"; PPointer].
Definition println_digest (digest : Hash) : Event :=
  EvPrintln [PString "encodedTxHash:"; PString (Hash_Hex digest)].

Inductive linear_run : outcome unit * list Event -> Prop :=
  | FetchNonce_Failed e ev1 :
      getSafeNonce net safe h = (Return (Err e), ev1) ->
      linear_run (Return (Err e), ev1)
  | EstimateGas_Failed nonce ev1 e ev2 :
      getSafeNonce net safe h = (Return (Ok nonce), ev1) ->
      getGasEstimation net to safe amount (h ++ ev1 ++ [println_nonce nonce])
        = (Return (Err e), ev2) ->
      linear_run (Return (Err e), ev1 ++ [println_nonce nonce] ++ ev2)
  | BuildDigest_Failed nonce ev1 safeTxGas ev2 e :
      getSafeNonce net safe h = (Return (Ok nonce), ev1) ->
      getGasEstimation net to safe amount (h ++ ev1 ++ [println_nonce nonce])
        = (Return (Ok safeTxGas), ev2) ->
      encodedTxHash (gnosisSafeTx from to safe amount safeTxGas nonce) = Err e ->
      linear_run (Return (Err e),
                  ev1 ++ [println_nonce nonce] ++ ev2 ++ [println_safeTxGas])
  | Sign_Failed nonce ev1 safeTxGas ev2 digest e :
      getSafeNonce net safe h = (Return (Ok nonce), ev1) ->
      getGasEstimation net to safe amount (h ++ ev1 ++ [println_nonce nonce])
        = (Return (Ok safeTxGas), ev2) ->
      encodedTxHash (gnosisSafeTx from to safe amount safeTxGas nonce) = Ok digest ->
      (crypto_HexToECDSA privKey = Err e \/
       exists key, crypto_HexToECDSA privKey = Ok key /\
                   crypto_Sign (Hash_Bytes digest) key = Err e) ->
      linear_run (Return (Err e),
                  ev1 ++ [println_nonce nonce] ++ ev2 ++ [println_safeTxGas]
                    ++ [println_digest digest])
  | Submit_Done nonce ev1 safeTxGas ev2 digest key sig sig' r ev3 :
      getSafeNonce net safe h = (Return (Ok nonce), ev1) ->
      getGasEstimation net to safe amount (h ++ ev1 ++ [println_nonce nonce])
        = (Return (Ok safeTxGas), ev2) ->
      encodedTxHash (gnosisSafeTx from to safe amount safeTxGas nonce) = Ok digest ->
      crypto_HexToECDSA privKey = Ok key ->
      crypto_Sign (Hash_Bytes digest) key = Ok sig ->
      normalizeRecoveryId sig = Return (Ok sig') ->
      sendGnosisTx net from to safe amount safeTxGas nonce
          (Hash_Hex digest) (hexutil_Encode sig')
          (h ++ ev1 ++ [println_nonce nonce] ++ ev2 ++ [println_safeTxGas]
             ++ [println_digest digest])
        = (Return r, ev3) ->
      linear_run (Return r,
                  ev1 ++ [println_nonce nonce] ++ ev2 ++ [println_safeTxGas]
                    ++ [println_digest digest] ++ ev3).
End LinearRun.

(** ** A test double of the libraries and of the service

    Stand-ins that compute, to run the program on concrete inputs: a JSON
    text without escapes for the requests, addresses kept as their text, a
    toy digest in place of the struct hash and of Keccak-256, and a toy
    signature of 65 bytes. *)
Module Demo.

Definition quote (s : string) : string := String dquote s +:+ String dquote "".

Definition member (name value : string) : string := quote name +:+ ":" +:+ value.

Definition object (members : list string) : string :=
  "{" +:+ strings_Join members "," +:+ "}".

Definition nullable (o : option string) : string :=
  match o with
  | Some s => quote s
  | None => "null"
  end.

Definition render_gasEstimationRequest (r : gasEstimationRequest.t) : string :=
  object
    [ member "to" (quote (gasEstimationRequest.To r));
      member "value" (pretty (gasEstimationRequest.Value r));
      member "data" (nullable (gasEstimationRequest.Data r));
      member "operation" (pretty (gasEstimationRequest.Operation r));
      member "gasToken" (nullable (gasEstimationRequest.GasToken r)) ].

Definition render_gnosisTxRequest (r : gnosisTxRequest.t) : string :=
  object
    [ member "to" (quote (gnosisTxRequest.To r));
      member "value" (pretty (gnosisTxRequest.Value r));
      member "data" (nullable (gnosisTxRequest.Data r));
      member "operation" (pretty (gnosisTxRequest.Operation r));
      member "gasToken" (quote (gnosisTxRequest.GasToken r));
      member "safeTxGas" (pretty (gnosisTxRequest.SafeTxGas r));
      member "baseGas" (pretty (gnosisTxRequest.BaseGas r));
      member "gasPrice" (pretty (gnosisTxRequest.GasPrice r));
      member "refundReceiver" (quote (gnosisTxRequest.RefundReceiver r));
      member "nonce" (pretty (gnosisTxRequest.Nonce r));
      member "contractTransactionHash" (quote (gnosisTxRequest.ContractTransactionHash r));
      member "sender" (quote (gnosisTxRequest.Sender r));
      member "signature" (quote (gnosisTxRequest.Signature r));
      member "origin" (nullable (gnosisTxRequest.Origin r)) ].

Definition bytes_of_string (s : string) : list byte := String.list_byte_of_string s.

Definition byte_of (n : N) : byte :=
  match Byte.of_N (n mod 256) with
  | Some b => b
  | None => x00
  end.

(** Byte [i] of a digest of [n] bytes mixes the whole input with [i]. *)
Definition mix (n : nat) (input : list byte) : list byte :=
  map (fun i => byte_of (fold_left (fun acc b => acc * 31 + Byte.to_N b + 7)%N
                           input (N.of_nat i + 1)%N))
      (seq 0 n).

Definition digest32 (input : list byte) : Hash := mkHash (mix 32 input) eq_refl.

(** The typed data of a transaction: its fields in a row. *)
Definition typed_data (tx : GnosisSafeTx.t string string) : list byte :=
  bytes_of_string
    (strings_Join
       [ GnosisSafeTx.Sender tx; GnosisSafeTx.Safe tx; GnosisSafeTx.To tx;
         pretty (GnosisSafeTx.Value tx); pretty (GnosisSafeTx.GasPrice tx);
         pretty (GnosisSafeTx.Operation tx); GnosisSafeTx.GasToken tx;
         GnosisSafeTx.RefundReceiver tx; pretty (GnosisSafeTx.BaseGas tx);
         pretty (GnosisSafeTx.SafeTxGas tx); pretty (GnosisSafeTx.Nonce tx) ]
       ";").

Definition HexToECDSA (hexkey : string) : result (list byte) :=
  if (String.length hexkey =? 64)%nat then Ok (bytes_of_string hexkey)
  else Err (EthError "invalid length, need 256 bits").

Definition Sign (digest key : list byte) : result (list byte) :=
  if (length digest =? 32)%nat
  then Ok (mix 64 (digest ++ key) ++ [byte_of (Byte.to_N (hd x00 key) mod 2)])
  else Err (EthError "hash is required to be exactly 32 bytes").

#[export] Instance library : Library.
Proof.
  refine
    {| encode_gasEstimationRequest := render_gasEstimationRequest;
       encode_gnosisTxRequest := render_gnosisTxRequest;
       Address := string;
       MixedcaseAddress := string;
       common_HexToAddress := fun s => s;
       common_NewMixedcaseAddress := fun a => a;
       TypedData := GnosisSafeTx.t string string;
       TypedDataMessage := list byte;
       ToTypedData := fun tx => tx;
       Domain_Map := fun td => bytes_of_string (GnosisSafeTx.Safe td);
       PrimaryType := fun _ => "SafeTx";
       Message := typed_data;
       HashStruct := fun _ name msg => Ok (mix 32 (bytes_of_string name ++ msg));
       PrivateKey := list byte;
       crypto_Keccak256Hash := digest32;
       crypto_HexToECDSA := HexToECDSA;
       crypto_Sign := Sign;
       crypto_Sign_length := _ |}.
  intros digest key sig. unfold Sign.
  destruct (length digest =? 32)%nat; intros E; inversion E. reflexivity.
Defined.

(** A service that gives each of the three endpoints one answer. *)
Definition service (nonceResp estimateResp submitResp : result Response) : Network :=
  fun _ r =>
    match r with
    | GET _ => nonceResp
    | POST url _ _ =>
        if String.prefix "https://safe-relay." url then estimateResp else submitResp
    end.

Definition ok (status : Z) (body : string) : result Response :=
  Ok (mkResponse status (Ok body)).

Definition safe : string := "0x1230000000000000000000000000000000000321".
Definition from : string := "0xaaa0000000000000000000000000000000000aaa".
Definition to : string := "0xbbb0000000000000000000000000000000000bbb".
Definition privKey : string :=
  "00112233445566778899aabbccddeeff00112233445566778899aabbccddeeff".

Definition nonce5 : result Response := ok 200 (q "{'address': '0x123', 'nonce': 5, 'threshold': 2}").
Definition gas21000 : result Response := ok 200 (q "{'safeTxGas': '21000', 'lastUsedNonce': null}").

(** The service accepts the proposal. *)
Definition accepting : Network := service nonce5 gas21000 (ok 200 "").

(** The service rejects the proposal. *)
Definition rejecting : Network :=
  service nonce5 gas21000
    (ok 400 (q "{'nonFieldErrors': ['Nonce too low', 'Invalid signature']}")).

(** The service answers 201 Created to the proposal. *)
Definition creating : Network := service nonce5 gas21000 (ok 201 "{}").

(** The proposal a run against the accepting service posts. *)
Definition posted : string :=
  Eval vm_compute in
    default "" (last_post_body
                  (snd (sendTransaction accepting from to safe 1000000 privKey []))).
End Demo.

(** ** [main], and what a run prints *)

Section Main.
Context {lib : Library}.
Variable errorText : error -> string.
Variable net : Network.

(** [main]: one call of [sendTransaction] with the values written in the
    source; an error is printed with its text [err.Error()], here
    [errorText], and goes no further. *)
Definition main : M unit :=
  fun h =>
    match sendTransaction net "<SIGNER_ADDRESS>" "<RECEIVER_ADDRESS>" "<SAFE_ADDRESS>"
            1000000 "<SIGNER_PRIVATE_KEY>" h with
    | (Return (Err err), evs) =>
        (Return (Ok tt), evs ++ [EvPrintln [PString "error:"; PString (errorText err)]])
    | run => run
    end.
End Main.



(** * Properties *)

(** ** The model at work *)

Example ParseInt_21000 : strconv_ParseInt "21000" = Ok 21000.
Proof. reflexivity. Qed.

Example ParseInt_abc :
  strconv_ParseInt "abc" = Err (NumError "ParseInt" "abc" ErrSyntax).
Proof. reflexivity. Qed.

Example ParseInt_min : strconv_ParseInt "-9223372036854775808" = Ok (- 2 ^ 63).
Proof. reflexivity. Qed.

Example ParseInt_beyond :
  strconv_ParseInt "9223372036854775808"
  = Err (NumError "ParseInt" "9223372036854775808" ErrRange).
Proof. reflexivity. Qed.

Example ParseInt_underscore :
  strconv_ParseInt "21_000" = Err (NumError "ParseInt" "21_000" ErrSyntax).
Proof. reflexivity. Qed.

Example Encode_bytes : hexutil_Encode [x01; x13; xff] = "0x0113ff".
Proof. reflexivity. Qed.

Example Join_two :
  strings_Join ["Nonce too low"; "Invalid signature"] LF
  = "Nonce too low" +:+ LF +:+ "Invalid signature".
Proof. reflexivity. Qed.

Example parse_document :
  json_parse (q " {'a': [1, -0.5e+3, true, null], 'b': {'c': 'x\u0041\n'}} ")
  = Some (JObject
            [("a", JArray [JNumber "1"; JNumber "-0.5e+3"; JBool true; JNull]);
             ("b", JObject [("c", JString ("xA" +:+ LF))])]).
Proof. vm_compute. reflexivity. Qed.

Example parse_trailing_comma : json_parse "[1,]" = None.
Proof. vm_compute. reflexivity. Qed.

Example parse_leading_zero : json_parse "01" = None.
Proof. vm_compute. reflexivity. Qed.

Example parse_empty : json_parse "" = None.
Proof. vm_compute. reflexivity. Qed.

Example Unmarshal_account :
  json_Unmarshal safeNonceResponse.type
    (q "{'address': '0xabc', 'nonce': 5, 'threshold': 2, 'owners': ['a', 'b'], 'x': {}}")
    (zero safeNonceResponse.type)
  = Ok (safeNonceResponse.mk "0xabc" 5 2 ["a"; "b"] "" [] "" "" "").
Proof. vm_compute. reflexivity. Qed.

Example Unmarshal_any_case :
  json_Unmarshal safeNonceResponse.type (q "{'NONCE': 7}") (zero safeNonceResponse.type)
  = Ok (safeNonceResponse.mk "" 7 0 [] "" [] "" "" "").
Proof. vm_compute. reflexivity. Qed.

Example Unmarshal_fraction :
  json_Unmarshal safeNonceResponse.type (q "{'nonce': 1.5}") (zero safeNonceResponse.type)
  = Err (UnmarshalTypeError "number 1.5" "int64").
Proof. vm_compute. reflexivity. Qed.

Example Unmarshal_not_json :
  json_Unmarshal safeNonceResponse.type "<html>" (zero safeNonceResponse.type)
  = Err SyntaxError.
Proof. vm_compute. reflexivity. Qed.

(** A run against the accepting service: the three requests, and success. *)
Example run_accepted :
  let run := sendTransaction (lib := Demo.library) Demo.accepting Demo.from Demo.to
               Demo.safe 1000000 Demo.privKey [] in
  fst run = Return (Ok tt) /\
  requests (snd run)
  = [GET (nonce_url Demo.safe);
     estimate_post (lib := Demo.library) Demo.to Demo.safe 1000000;
     POST (submit_url Demo.safe) "application/json" Demo.posted].
Proof. vm_compute. repeat split. Qed.

(** A run with a private key that does not parse stops before it submits. *)
Example run_bad_key :
  let run := sendTransaction (lib := Demo.library) Demo.accepting Demo.from Demo.to
               Demo.safe 1000000 "abc" [] in
  fst run = Return (Err (EthError "invalid length, need 256 bits")) /\
  requests (snd run)
  = [GET (nonce_url Demo.safe);
     estimate_post (lib := Demo.library) Demo.to Demo.safe 1000000].
Proof. vm_compute. repeat split. Qed.

(** ** The JSON reader has fuel enough *)

Lemma skip_space_length (s : string) : (len (skip_space s) <= len s)%nat.
Proof.
  induction s as [|c r IH]; simpl; [lia|]. destruct (is_space c); simpl; lia.
Qed.

Lemma string_drop_length (n : nat) (s : string) : (len (string_drop n s) <= len s)%nat.
Proof.
  revert s. induction n as [|n IH]; intros [|c r]; simpl; try lia.
  specialize (IH r). lia.
Qed.

Lemma span_digits_length (s d t : string) :
  span_digits s = (d, t) -> (len d + len t = len s)%nat.
Proof.
  revert d t. induction s as [|c r IH]; simpl; intros d t E.
  - inversion E. reflexivity.
  - destruct (is_digit c).
    + destruct (span_digits r) as [d' t']. specialize (IH d' t' eq_refl).
      inversion E. subst. simpl. lia.
    + inversion E. reflexivity.
Qed.

Lemma scan_digits1_length (s d t : string) :
  scan_digits1 s = Some (d, t) -> (len t < len s)%nat.
Proof.
  unfold scan_digits1. destruct (span_digits s) as [d' t'] eqn:E.
  apply span_digits_length in E.
  destruct d' as [|c d']; intros E'; inversion E'. subst. simpl in E. lia.
Qed.

Lemma scan_int_length (s i t : string) :
  scan_int s = Some (i, t) -> (len t < len s)%nat.
Proof.
  destruct s as [|c r]; simpl; [discriminate|].
  destruct (Ascii.eqb c "0"); [intros E; inversion E; lia|].
  destruct (is_digit c); [|discriminate].
  destruct (span_digits r) as [d t'] eqn:E. apply span_digits_length in E.
  intros E'. inversion E'. subst. lia.
Qed.

Lemma scan_frac_length (s f t : string) :
  scan_frac s = Some (f, t) -> (len t <= len s)%nat.
Proof.
  destruct s as [|c r]; simpl; [intros E; inversion E; simpl; lia|].
  destruct (Ascii.eqb c ".").
  - destruct (scan_digits1 r) as [[d t']|] eqn:E; [|discriminate].
    apply scan_digits1_length in E. intros E'. inversion E'. subst. lia.
  - intros E. inversion E. simpl. lia.
Qed.

Lemma scan_exp_length (s e t : string) :
  scan_exp s = Some (e, t) -> (len t <= len s)%nat.
Proof.
  destruct s as [|c r]; simpl; [intros E; inversion E; simpl; lia|].
  destruct (Ascii.eqb c "e" || Ascii.eqb c "E").
  - destruct r as [|c1 r']; simpl.
    + discriminate.
    + destruct (Ascii.eqb c1 "+" || Ascii.eqb c1 "-").
      * destruct (scan_digits1 r') as [[d t']|] eqn:E; [|discriminate].
        apply scan_digits1_length in E. intros E'. inversion E'. subst. lia.
      * destruct (scan_digits1 (String c1 r')) as [[d t']|] eqn:E; [|discriminate].
        apply scan_digits1_length in E. intros E'. inversion E'. subst. simpl in E. lia.
  - intros E. inversion E. simpl. lia.
Qed.

Lemma scan_number_length (s lit t : string) :
  scan_number s = Some (lit, t) -> (len t < len s)%nat.
Proof.
  unfold scan_number.
  assert (Hs : forall sg s1,
    match s with
    | String c r => if Ascii.eqb c "-" then ("-", r) else ("", s)
    | EmptyString => ("", s)
    end = (sg, s1) -> (len s1 <= len s)%nat).
  { intros sg s1. destruct s as [|c r]; [intros E; inversion E; lia|].
    destruct (Ascii.eqb c "-"); intros E; inversion E; simpl; lia. }
  destruct (match s with
            | String c r => if Ascii.eqb c "-" then ("-", r) else ("", s)
            | EmptyString => ("", s)
            end) as [sg s1] eqn:E0.
  specialize (Hs sg s1 eq_refl).
  destruct (scan_int s1) as [[i s2]|] eqn:E1; [|discriminate].
  destruct (scan_frac s2) as [[f s3]|] eqn:E2; [|discriminate].
  destruct (scan_exp s3) as [[e s4]|] eqn:E3; [|discriminate].
  apply scan_int_length in E1. apply scan_frac_length in E2. apply scan_exp_length in E3.
  intros E. inversion E. subst. lia.
Qed.

Lemma scan_hex4_length (s r : string) (x : Z) :
  scan_hex4 s = Some (x, r) -> (len r < len s)%nat.
Proof.
  destruct s as [|a [|b [|c [|d r']]]]; simpl; try discriminate.
  destruct (hex_value a), (hex_value b), (hex_value c), (hex_value d); try discriminate.
  intros E. inversion E. subst. lia.
Qed.

Lemma getu4_length (s r : string) (x : Z) :
  getu4 s = Some (x, r) -> (len r < len s)%nat.
Proof.
  destruct s as [|b [|u r']]; simpl; try discriminate.
  destruct (Ascii.eqb b backslash && Ascii.eqb u "u"); [|discriminate].
  intros E. apply scan_hex4_length in E. lia.
Qed.

Lemma scan_escape_length (s out r : string) :
  scan_escape s = Some (out, r) -> (len r < len s)%nat.
Proof.
  destruct s as [|c r0]; simpl; [discriminate|].
  repeat match goal with
         | |- context [if ?b then _ else _] =>
             lazymatch b with
             | context [scan_hex4] => fail
             | context [getu4] => fail
             | context [Z.leb] => fail
             | context [Z.ltb] => fail
             | _ => destruct b; [intros E; inversion E; subst; lia|]
             end
         end.
  destruct (Ascii.eqb c "u"); [|discriminate].
  destruct (scan_hex4 r0) as [[rr r1]|] eqn:E1; [|discriminate].
  apply scan_hex4_length in E1.
  destruct ((0xD800 <=? rr)%Z && (rr <? 0xE000)%Z).
  - destruct (getu4 r1) as [[rr1 r2]|] eqn:E2.
    + apply getu4_length in E2.
      destruct ((rr <? 0xDC00)%Z && (0xDC00 <=? rr1)%Z && (rr1 <? 0xE000)%Z);
        intros E; inversion E; subst; lia.
    + intros E; inversion E; subst; lia.
  - intros E; inversion E; subst; lia.
Qed.

Lemma utf8_rune_size_pos (s : string) (n : nat) :
  utf8_rune_size s = Some n -> (0 < n)%nat.
Proof.
  unfold utf8_rune_size. destruct s as [|c0 [|c1 r1]]; try discriminate.
  repeat match goal with
         | |- context [if ?b then _ else _] => destruct b
         | |- context [match ?r with EmptyString => _ | String _ _ => _ end] => destruct r
         end; intros E; inversion E; lia.
Qed.

Lemma scan_string_mono (f : nat) :
  forall s res f', scan_string f s = Some res -> (f <= f')%nat ->
  scan_string f' s = Some res.
Proof.
  induction f as [|f IH]; intros s res f' E Hle; [discriminate|].
  destruct f' as [|f']; [lia|]. assert (Hle' : (f <= f')%nat) by lia.
  destruct s as [|c r]; [discriminate|]. cbn [scan_string] in *.
  destruct (Ascii.eqb c dquote); [exact E|].
  destruct (Ascii.eqb c backslash).
  { destruct (scan_escape r) as [[out r1]|]; [|discriminate].
    destruct (scan_string f r1) as [[str t]|] eqn:E1; [|discriminate].
    now rewrite (IH _ _ _ E1 Hle'). }
  destruct (code c <? 32)%Z; [discriminate|].
  destruct (code c <? 128)%Z.
  { destruct (scan_string f r) as [[str t]|] eqn:E1; [|discriminate].
    now rewrite (IH _ _ _ E1 Hle'). }
  destruct (match utf8_rune_size (String c r) with
            | Some n => (string_take n (String c r), string_drop n (String c r))
            | None => (utf8_EncodeRune RuneError, r)
            end) as [out r1].
  destruct (scan_string f r1) as [[str t]|] eqn:E1; [|discriminate].
  now rewrite (IH _ _ _ E1 Hle').
Qed.

(** A string literal is scanned with the length of the text as fuel, and
    takes at least its closing quote. *)
Lemma scan_string_fuel (f : nat) :
  forall s str t, scan_string f s = Some (str, t) ->
  (len t < len s)%nat /\ scan_string (len s) s = Some (str, t).
Proof.
  induction f as [|f IH]; intros s str t E; [discriminate|].
  destruct s as [|c r]; [discriminate|]. cbn [scan_string len] in *.
  destruct (Ascii.eqb c dquote); [inversion E; subst; split; [lia|reflexivity]|].
  destruct (Ascii.eqb c backslash).
  { destruct (scan_escape r) as [[out r1]|] eqn:Ee; [|discriminate].
    apply scan_escape_length in Ee.
    destruct (scan_string f r1) as [[str1 t1]|] eqn:E1; [|discriminate].
    destruct (IH _ _ _ E1) as [Hl Hf]. inversion E; subst.
    split; [lia|]. rewrite (scan_string_mono _ _ _ (len r) Hf) by lia. reflexivity. }
  destruct (code c <? 32)%Z; [discriminate|].
  destruct (code c <? 128)%Z.
  { destruct (scan_string f r) as [[str1 t1]|] eqn:E1; [|discriminate].
    destruct (IH _ _ _ E1) as [Hl Hf]. inversion E; subst.
    split; [lia|]. rewrite Hf. reflexivity. }
  destruct (match utf8_rune_size (String c r) with
            | Some n => (string_take n (String c r), string_drop n (String c r))
            | None => (utf8_EncodeRune RuneError, r)
            end) as [out r1] eqn:Eu.
  assert (Hr1 : (len r1 <= len r)%nat).
  { destruct (utf8_rune_size (String c r)) as [n|] eqn:En.
    - apply utf8_rune_size_pos in En. destruct n as [|n]; [lia|].
      inversion Eu. subst. cbn [string_drop]. apply string_drop_length.
    - inversion Eu. subst. lia. }
  destruct (scan_string f r1) as [[str1 t1]|] eqn:E1; [|discriminate].
  destruct (IH _ _ _ E1) as [Hl Hf]. inversion E; subst.
  split; [lia|]. rewrite (scan_string_mono _ _ _ (len r) Hf) by lia. reflexivity.
Qed.

Lemma scan_string_length (f : nat) (s str t : string) :
  scan_string f s = Some (str, t) -> (len t < len s)%nat.
Proof. intros E. now destruct (scan_string_fuel f s str t E). Qed.

Lemma starts_with_length (p : string) (c : ascii) (r t : string) :
  p <> EmptyString -> starts_with p (String c r) = Some t ->
  (len t < len (String c r))%nat.
Proof.
  unfold starts_with. destruct (String.prefix p (String c r)); [|discriminate].
  destruct p as [|c' p']; [contradiction|]. intros _ E. inversion E. subst.
  cbn [len string_drop]. pose proof (string_drop_length (len p') r). lia.
Qed.

Lemma parse_scalar_length (s : string) (v : json) (t : string) :
  parse_scalar s = Some (v, t) -> (len t < len s)%nat.
Proof.
  destruct s as [|c r]; [discriminate|]. cbn [parse_scalar].
  destruct (Ascii.eqb c dquote).
  { destruct (scan_string (len r) r) as [[str t']|] eqn:E; [|discriminate].
    apply scan_string_length in E. intros E'. inversion E'. subst. simpl. lia. }
  destruct (Ascii.eqb c "t").
  { destruct (starts_with "true" (String c r)) as [t'|] eqn:E; [|discriminate].
    apply starts_with_length in E; [|discriminate]. intros E'. inversion E'. now subst. }
  destruct (Ascii.eqb c "f").
  { destruct (starts_with "false" (String c r)) as [t'|] eqn:E; [|discriminate].
    apply starts_with_length in E; [|discriminate]. intros E'. inversion E'. now subst. }
  destruct (Ascii.eqb c "n").
  { destruct (starts_with "null" (String c r)) as [t'|] eqn:E; [|discriminate].
    apply starts_with_length in E; [|discriminate]. intros E'. inversion E'. now subst. }
  destruct (scan_number (String c r)) as [[lit t']|] eqn:E; [|discriminate].
  apply scan_number_length in E. intros E'. inversion E'. now subst.
Qed.

Lemma scan_close_length (close : ascii) (s t : string) :
  scan_close close s = Some t -> (len t < len s)%nat.
Proof.
  unfold scan_close. pose proof (skip_space_length s) as Hs.
  destruct (skip_space s) as [|c r]; [discriminate|].
  destruct (Ascii.eqb c close); [|discriminate].
  intros E. inversion E. subst. simpl in Hs. lia.
Qed.

Lemma scan_sep_length (close : ascii) (s r : string) (b : bool) :
  scan_sep close s = Some (b, r) -> (len r < len s)%nat.
Proof.
  unfold scan_sep. pose proof (skip_space_length s) as Hs.
  destruct (skip_space s) as [|c r']; [discriminate|]. simpl in Hs.
  destruct (Ascii.eqb c ","); [intros E; inversion E; subst; lia|].
  destruct (Ascii.eqb c close); [|discriminate].
  intros E. inversion E. subst. lia.
Qed.

Lemma scan_key_length (s key t : string) :
  scan_key s = Some (key, t) -> (len t < len s)%nat.
Proof.
  unfold scan_key. pose proof (skip_space_length s) as Hs.
  destruct (skip_space s) as [|c r]; [discriminate|]. simpl in Hs.
  destruct (Ascii.eqb c dquote); [|discriminate].
  destruct (scan_string (len r) r) as [[k t']|] eqn:E; [|discriminate].
  apply scan_string_length in E. pose proof (skip_space_length t') as Ht.
  destruct (skip_space t') as [|c1 t1]; [discriminate|]. simpl in Ht.
  destruct (Ascii.eqb c1 ":"); [|discriminate].
  intros E'. inversion E'. subst. lia.
Qed.

(** More fuel parses the same. *)
Lemma parse_mono (f : nat) :
  (forall d s res f', parse_value f d s = Some res -> (f <= f')%nat ->
     parse_value f' d s = Some res) /\
  (forall d s acc res f', parse_elements f d s acc = Some res -> (f <= f')%nat ->
     parse_elements f' d s acc = Some res) /\
  (forall d s acc res f', parse_members f d s acc = Some res -> (f <= f')%nat ->
     parse_members f' d s acc = Some res).
Proof.
  induction f as [|f (IHv & IHe & IHm)]; [repeat split; discriminate|].
  repeat split.
  - intros d s res [|f'] E Hle; [lia|]. assert (Hle' : (f <= f')%nat) by lia.
    cbn [parse_value] in *.
    destruct (skip_space s) as [|c r]; [discriminate|].
    destruct (Ascii.eqb c "{").
    { destruct (d <? maxNestingDepth)%N; [|discriminate].
      destruct (scan_close "}" r); [exact E|]. now apply IHm with (f' := f') in E. }
    destruct (Ascii.eqb c "[").
    { destruct (d <? maxNestingDepth)%N; [|discriminate].
      destruct (scan_close "]" r); [exact E|]. now apply IHe with (f' := f') in E. }
    exact E.
  - intros d s acc res [|f'] E Hle; [lia|]. assert (Hle' : (f <= f')%nat) by lia.
    cbn [parse_elements] in *.
    destruct (parse_value f d s) as [[v t]|] eqn:Ev; [|discriminate].
    rewrite (IHv _ _ _ f' Ev Hle').
    destruct (scan_sep "]" t) as [[[|] r]|]; [|exact E|discriminate].
    now apply IHe with (f' := f') in E.
  - intros d s acc res [|f'] E Hle; [lia|]. assert (Hle' : (f <= f')%nat) by lia.
    cbn [parse_members] in *.
    destruct (scan_key s) as [[key t1]|]; [|discriminate].
    destruct (parse_value f d t1) as [[v t2]|] eqn:Ev; [|discriminate].
    rewrite (IHv _ _ _ f' Ev Hle').
    destruct (scan_sep "}" t2) as [[[|] r]|]; [|exact E|discriminate].
    now apply IHm with (f' := f') in E.
Qed.

(** What is parsed is parsed with as much fuel as it takes bytes. *)
Lemma parse_fuel (f : nat) :
  (forall d s v t, parse_value f d s = Some (v, t) ->
     (len t < len s)%nat /\ parse_value (len s - len t) d s = Some (v, t)) /\
  (forall d s acc v t, parse_elements f d s acc = Some (v, t) ->
     (len t < len s)%nat /\ parse_elements (len s - len t) d s acc = Some (v, t)) /\
  (forall d s acc v t, parse_members f d s acc = Some (v, t) ->
     (len t < len s)%nat /\ parse_members (len s - len t) d s acc = Some (v, t)).
Proof.
  induction f as [|f (IHv & IHe & IHm)]; [repeat split; discriminate|].
  split; [|split].
  - intros d s v t E. cbn [parse_value] in E.
    pose proof (skip_space_length s) as Hs.
    destruct (skip_space s) as [|c r] eqn:Es; [discriminate|]. simpl in Hs.
    assert (Hgoal : forall k, (len t < len s)%nat -> (len s - len t = S k)%nat ->
              (if Ascii.eqb c "{" then
                 if (d <? maxNestingDepth)%N then
                   match scan_close "}" r with
                   | Some t0 => Some (JObject [], t0)
                   | None => parse_members k (N.succ d) r []
                   end
                 else None
               else if Ascii.eqb c "[" then
                 if (d <? maxNestingDepth)%N then
                   match scan_close "]" r with
                   | Some t0 => Some (JArray [], t0)
                   | None => parse_elements k (N.succ d) r []
                   end
                 else None
               else parse_scalar (String c r)) = Some (v, t) ->
              (len t < len s)%nat /\ parse_value (len s - len t) d s = Some (v, t)).
    { intros k Hlt Hk Hbody. split; [exact Hlt|]. rewrite Hk. cbn [parse_value].
      rewrite Es. exact Hbody. }
    destruct (Ascii.eqb c "{").
    { destruct (d <? maxNestingDepth)%N; [|discriminate].
      destruct (scan_close "}" r) as [t0|] eqn:Ec.
      - apply scan_close_length in Ec. inversion E. subst.
        apply (Hgoal (len s - len t - 1)%nat); [lia|lia|reflexivity].
      - destruct (IHm _ _ _ _ _ E) as [Hl Hf].
        apply (Hgoal (len s - len t - 1)%nat); [lia|lia|].
        apply (proj2 (proj2 (parse_mono _)) _ _ _ _ _ Hf). lia. }
    destruct (Ascii.eqb c "[").
    { destruct (d <? maxNestingDepth)%N; [|discriminate].
      destruct (scan_close "]" r) as [t0|] eqn:Ec.
      - apply scan_close_length in Ec. inversion E. subst.
        apply (Hgoal (len s - len t - 1)%nat); [lia|lia|reflexivity].
      - destruct (IHe _ _ _ _ _ E) as [Hl Hf].
        apply (Hgoal (len s - len t - 1)%nat); [lia|lia|].
        apply (proj1 (proj2 (parse_mono _)) _ _ _ _ _ Hf). lia. }
    pose proof (parse_scalar_length _ _ _ E) as Hl. simpl in Hl.
    apply (Hgoal (len s - len t - 1)%nat); [lia|lia|exact E].
  - intros d s acc v t E. cbn [parse_elements] in E.
    destruct (parse_value f d s) as [[v1 t1]|] eqn:Ev; [|discriminate].
    destruct (IHv _ _ _ _ Ev) as [Hl1 Hf1].
    destruct (scan_sep "]" t1) as [[[|] r]|] eqn:Esep; [| |discriminate];
      pose proof (scan_sep_length _ _ _ _ Esep) as Hr.
    + destruct (IHe _ _ _ _ _ E) as [Hl Hf]. split; [lia|].
      replace (len s - len t)%nat with (S (len s - len t - 1)) by lia.
      cbn [parse_elements].
      rewrite (proj1 (parse_mono _) _ _ _ (len s - len t - 1)%nat Hf1) by lia.
      rewrite Esep.
      apply (proj1 (proj2 (parse_mono _)) _ _ _ _ _ Hf). lia.
    + inversion E. subst. split; [lia|].
      replace (len s - len t)%nat with (S (len s - len t - 1)) by lia.
      cbn [parse_elements].
      rewrite (proj1 (parse_mono _) _ _ _ (len s - len t - 1)%nat Hf1) by lia.
      rewrite Esep. reflexivity.
  - intros d s acc v t E. cbn [parse_members] in E.
    destruct (scan_key s) as [[key t1]|] eqn:Ek; [|discriminate].
    pose proof (scan_key_length _ _ _ Ek) as Hk.
    destruct (parse_value f d t1) as [[v1 t2]|] eqn:Ev; [|discriminate].
    destruct (IHv _ _ _ _ Ev) as [Hl1 Hf1].
    destruct (scan_sep "}" t2) as [[[|] r]|] eqn:Esep; [| |discriminate];
      pose proof (scan_sep_length _ _ _ _ Esep) as Hr.
    + destruct (IHm _ _ _ _ _ E) as [Hl Hf]. split; [lia|].
      replace (len s - len t)%nat with (S (len s - len t - 1)) by lia.
      cbn [parse_members]. rewrite Ek.
      rewrite (proj1 (parse_mono _) _ _ _ (len s - len t - 1)%nat Hf1) by lia.
      rewrite Esep.
      apply (proj2 (proj2 (parse_mono _)) _ _ _ _ _ Hf). lia.
    + inversion E. subst. split; [lia|].
      replace (len s - len t)%nat with (S (len s - len t - 1)) by lia.
      cbn [parse_members]. rewrite Ek.
      rewrite (proj1 (parse_mono _) _ _ _ (len s - len t - 1)%nat Hf1) by lia.
      rewrite Esep. reflexivity.
Qed.

(** The fuel of [json_parse] is enough: no amount of fuel parses a value the
    length of the body does not parse, and more fuel parses the same. *)
Theorem json_parse_fuel_enough (body : string) (f : nat) :
  (len body <= f)%nat ->
  parse_value f 0%N body = parse_value (len body) 0%N body.
Proof.
  intros Hle.
  destruct (parse_value (len body) 0%N body) as [res|] eqn:E.
  - apply (proj1 (parse_mono _) _ _ _ _ E Hle).
  - destruct (parse_value f 0%N body) as [[v t]|] eqn:E'; [|reflexivity].
    destruct (proj1 (parse_fuel f) _ _ _ _ E') as [Hl Hf].
    rewrite (proj1 (parse_mono _) _ _ _ (len body) Hf) in E by lia.
    discriminate E.
Qed.

(** So is the fuel of a string literal. *)
Theorem scan_string_fuel_enough (s : string) (f : nat) :
  (len s <= f)%nat -> scan_string f s = scan_string (len s) s.
Proof.
  intros Hle.
  destruct (scan_string (len s) s) as [res|] eqn:E.
  - apply (scan_string_mono _ _ _ _ E Hle).
  - destruct (scan_string f s) as [[str t]|] eqn:E'; [|reflexivity].
    destruct (scan_string_fuel f _ _ _ E') as [_ Hf]. rewrite Hf in E. discriminate E.
Qed.

(** ** Runs of the three clients *)

(** What [getSafeNonce] does: one GET, then the body is read and decoded. *)
Lemma getSafeNonce_run (net : Network) (safe : string) (h : list Event) :
  getSafeNonce net safe h =
    match net h (GET (nonce_url safe)) with
    | Err e => (Return (Err e), [EvRequest (GET (nonce_url safe))])
    | Ok resp =>
        (Return match Body resp with
                | Err e => Err e
                | Ok body =>
                    match json_Unmarshal safeNonceResponse.type body
                            (zero safeNonceResponse.type) with
                    | Err e => Err e
                    | Ok data => Ok (safeNonceResponse.Nonce data)
                    end
                end,
         [EvRequest (GET (nonce_url safe)); EvReadAll])
    end.
Proof.
  unfold getSafeNonce, bind, http_Get, ioutil_ReadAll, lift, ret, nonce_url.
  destruct (net h _) as [resp|e]; [|reflexivity].
  destruct (Body resp) as [body|e]; [|reflexivity].
  destruct (json_Unmarshal _ body _); reflexivity.
Qed.

Section Runs.
Context {lib : Library}.

(** What [getGasEstimation] does: one POST, then the body is read, decoded
    and its [safeTxGas] parsed. *)
Lemma getGasEstimation_run (net : Network) (to safe : string) (value : Z)
    (h : list Event) :
  getGasEstimation net to safe value h =
    match net h (estimate_post to safe value) with
    | Err e => (Return (Err e), [EvRequest (estimate_post to safe value)])
    | Ok resp =>
        (Return match Body resp with
                | Err e => Err e
                | Ok body =>
                    match json_Unmarshal gasEstimationResponse.type body
                            (zero gasEstimationResponse.type) with
                    | Err e => Err e
                    | Ok data => strconv_ParseInt (gasEstimationResponse.SafeTxGas data)
                    end
                end,
         [EvRequest (estimate_post to safe value); EvReadAll])
    end.
Proof.
  unfold getGasEstimation, bind, http_Post, ioutil_ReadAll, lift, ret, json_Marshal,
    estimate_post, estimate_url, estimate_request.
  rewrite app_nil_r. simpl.
  destruct (net h _) as [resp|e]; [|reflexivity].
  destruct (Body resp) as [body|e]; [|reflexivity].
  destruct (json_Unmarshal _ body _) as [data|e]; [|reflexivity].
  destruct (strconv_ParseInt _); reflexivity.
Qed.

(** What [sendGnosisTx] does: one POST; the body is read and decoded only
    when the status is not 200. *)
Lemma sendGnosisTx_run (net : Network) (from to safe : string)
    (amount safeTxGas nonce : Z) (hash signature : string) (h : list Event) :
  let post := submit_post from to safe amount safeTxGas nonce hash signature in
  sendGnosisTx net from to safe amount safeTxGas nonce hash signature h =
    match net h post with
    | Err e => (Return (Err e), [EvRequest post])
    | Ok resp =>
        if StatusCode resp =? 200 then (Return (Ok tt), [EvRequest post])
        else
          (Return match Body resp with
                  | Err e => Err e
                  | Ok body =>
                      match json_Unmarshal gnosisTxErrResponse.type body
                              (zero gnosisTxErrResponse.type) with
                      | Err e => Err e
                      | Ok data =>
                          Err (errors_New
                                 (strings_Join (gnosisTxErrResponse.NonFieldErrors data) LF))
                      end
                  end,
           [EvRequest post; EvReadAll])
    end.
Proof.
  unfold sendGnosisTx, bind, http_Post, ioutil_ReadAll, lift, ret, json_Marshal,
    submit_post, submit_url, proposal, http_StatusOK, LF.
  rewrite app_nil_r. simpl.
  destruct (net h _) as [resp|e]; [|reflexivity].
  destruct (StatusCode resp =? 200); [reflexivity|].
  destruct (Body resp) as [body|e]; [|reflexivity].
  destruct (json_Unmarshal _ body _) as [data|e]; reflexivity.
Qed.
End Runs.

(** ** The digest *)

Section Digest.
Context {lib : Library}.

(** C1.  The digest of a transaction is the Keccak-256 hash, 32 bytes long,
    of the two bytes 1 and 19, then the struct hash of the domain, then
    the struct hash of the message, in this order. *)
Theorem digest_is_keccak_of_prefix_domain_message
    (tx : GnosisSafeTx.t Address MixedcaseAddress) (domainHash messageHash : list byte) :
  HashStruct (ToTypedData tx) "EIP712Domain" (Domain_Map (ToTypedData tx))
    = Ok domainHash ->
  HashStruct (ToTypedData tx) (PrimaryType (ToTypedData tx)) (Message (ToTypedData tx))
    = Ok messageHash ->
  exists digest prefix,
    encodedTxHash tx = Ok digest /\
    digest = crypto_Keccak256Hash (prefix ++ domainHash ++ messageHash) /\
    map Byte.to_N prefix = [1; 19]%N /\
    length (Hash_Bytes digest) = 32%nat.
Proof.
  intros Hd Hm.
  exists (crypto_Keccak256Hash ([x01; x13] ++ domainHash ++ messageHash)), [x01; x13].
  unfold encodedTxHash. rewrite Hd, Hm.
  repeat split. apply Hash_length.
Qed.
End Digest.

(** The digest of the transaction of the test double. *)
Lemma digest_is_keccak_witness :
  exists digest,
    encodedTxHash (lib := Demo.library)
      (gnosisSafeTx Demo.from Demo.to Demo.safe 1000000 21000 5) = Ok digest /\
    length (Hash_Bytes digest) = 32%nat.
Proof.
  destruct (digest_is_keccak_of_prefix_domain_message (lib := Demo.library)
              (gnosisSafeTx Demo.from Demo.to Demo.safe 1000000 21000 5)
              _ _ eq_refl eq_refl) as (digest & prefix & E & _ & _ & L).
  exists digest. split; assumption.
Defined.

(** ** The recovery id *)

Lemma byte_add_27_of_0 : byte_add x00 27 = x1b.
Proof. reflexivity. Qed.

Lemma byte_add_27_of_1 : byte_add x01 27 = x1c.
Proof. reflexivity. Qed.

Lemma byte_eqb_eq (a b : byte) : Byte.eqb a b = true <-> a = b.
Proof.
  split.
  - intros E. apply Byte.byte_dec_bl in E. exact E.
  - intros ->. apply Byte.byte_dec_lb. reflexivity.
Qed.

(** A signature of more than 64 bytes is normalized without a panic. *)
Lemma normalizeRecoveryId_returns (signature : list byte) :
  (64 < length signature)%nat ->
  exists v, signature !! 64%nat = Some v /\
    normalizeRecoveryId signature =
      Return (Ok (if Byte.eqb v x00 || Byte.eqb v x01
                  then <[64%nat := byte_add v 27]> signature else signature)).
Proof.
  intros Hlen. destruct (lookup_lt_is_Some_2 signature 64%nat Hlen) as [v Hv].
  exists v. split; [exact Hv|]. unfold normalizeRecoveryId. rewrite Hv.
  destruct (Byte.eqb v x00 || Byte.eqb v x01); reflexivity.
Qed.

(** C3.  The last byte of a 65-byte signature becomes 27 where it is 0 and 28
    where it is 1, any other value stays, and the 64 bytes before it are
    never changed. *)
Theorem recovery_id_normalization (signature : list byte) :
  length signature = 65%nat ->
  exists signature',
    normalizeRecoveryId signature = Return (Ok signature') /\
    length signature' = 65%nat /\
    (forall v, signature !! 64%nat = Some v ->
       signature' !! 64%nat
         = Some (if Byte.eqb v x00 then x1b else if Byte.eqb v x01 then x1c else v)) /\
    Byte.to_N x1b = 27%N /\ Byte.to_N x1c = 28%N /\
    (forall i, (i < 64)%nat -> signature' !! i = signature !! i).
Proof.
  intros Hlen.
  destruct (normalizeRecoveryId_returns signature) as (v & Hv & Hrun); [lia|].
  eexists. split; [exact Hrun|].
  destruct (Byte.eqb v x00) eqn:E0; [|destruct (Byte.eqb v x01) eqn:E1]; simpl.
  - apply byte_eqb_eq in E0. subst v. rewrite byte_add_27_of_0.
    repeat split.
    + now rewrite length_insert.
    + intros v' Hv'. rewrite Hv in Hv'. inversion Hv'. subst v'. simpl.
      apply list_lookup_insert_eq. lia.
    + intros i Hi. apply list_lookup_insert_ne. lia.
  - apply byte_eqb_eq in E1. subst v. rewrite byte_add_27_of_1.
    repeat split.
    + now rewrite length_insert.
    + intros v' Hv'. rewrite Hv in Hv'. inversion Hv'. subst v'. simpl.
      apply list_lookup_insert_eq. lia.
    + intros i Hi. apply list_lookup_insert_ne. lia.
  - repeat split.
    + exact Hlen.
    + intros v' Hv'. rewrite Hv in Hv'. inversion Hv'. subst v'.
      rewrite E0, E1. exact Hv.
Qed.

(** ** The orchestrator *)

Lemma requests_app (evs evs' : list Event) :
  requests (evs ++ evs') = requests evs ++ requests evs'.
Proof. apply omap_app. Qed.

Lemma requests_println (args : list PrintArg) (evs : list Event) :
  requests (EvPrintln args :: evs) = requests evs.
Proof. reflexivity. Qed.

Ltac requests_norm :=
  unfold println_nonce, println_safeTxGas, println_digest;
  repeat (rewrite requests_app || rewrite requests_println).

(** The nonce fetch returns, and sends its one request. *)
Lemma getSafeNonce_returns (net : Network) (safe : string) (h : list Event) :
  exists r evs,
    getSafeNonce net safe h = (Return r, evs) /\
    requests evs = [GET (nonce_url safe)].
Proof.
  rewrite getSafeNonce_run.
  destruct (net h _) as [resp|e]; eexists; eexists; split; reflexivity.
Qed.

Section Orchestrator.
Context {lib : Library}.

Lemma getGasEstimation_returns (net : Network) (to safe : string) (value : Z)
    (h : list Event) :
  exists r evs,
    getGasEstimation net to safe value h = (Return r, evs) /\
    requests evs = [estimate_post to safe value].
Proof.
  rewrite getGasEstimation_run.
  destruct (net h _) as [resp|e]; eexists; eexists; split; reflexivity.
Qed.

Lemma sendGnosisTx_returns (net : Network) (from to safe : string)
    (amount safeTxGas nonce : Z) (hash signature : string) (h : list Event) :
  exists r evs,
    sendGnosisTx net from to safe amount safeTxGas nonce hash signature h
      = (Return r, evs) /\
    requests evs = [submit_post from to safe amount safeTxGas nonce hash signature].
Proof.
  rewrite sendGnosisTx_run. cbv zeta.
  destruct (net h _) as [resp|e].
  - destruct (StatusCode resp =? 200); eexists; eexists; split; reflexivity.
  - eexists; eexists; split; reflexivity.
Qed.

(** The signature the library returns is normalized without a panic. *)
Lemma signature_normalized (digest : list byte) (key : PrivateKey) (sig : list byte) :
  crypto_Sign digest key = Ok sig ->
  exists sig', normalizeRecoveryId sig = Return (Ok sig').
Proof.
  intros Hs. apply crypto_Sign_length in Hs.
  destruct (normalizeRecoveryId_returns sig) as (v & _ & Hn); [lia|].
  eexists. exact Hn.
Qed.

(** Every run of [sendTransaction] is a run of the linear machine. *)
Lemma sendTransaction_linear_run (net : Network) (from to safe : string) (amount : Z)
    (privKey : string) (h : list Event) :
  linear_run net from to safe amount privKey h
    (sendTransaction net from to safe amount privKey h).
Proof.
  unfold sendTransaction.
  unfold bind at 1.
  destruct (getSafeNonce_returns net safe h) as (r1 & ev1 & E1 & _).
  rewrite E1. destruct r1 as [nonce|e]; [|now apply FetchNonce_Failed].
  unfold bind at 1. unfold fmt_Println at 1.
  unfold bind at 1.
  destruct (getGasEstimation_returns net to safe amount
              ((h ++ ev1) ++ [EvPrintln [PString "nonce:"; PInt64 nonce]]))
    as (r2 & ev2 & E2 & _).
  rewrite E2.
  assert (E2' : getGasEstimation net to safe amount (h ++ ev1 ++ [println_nonce nonce])
                = (Return r2, ev2)).
  { unfold println_nonce. rewrite app_assoc. exact E2. }
  destruct r2 as [safeTxGas|e].
  2:{ apply (EstimateGas_Failed net from to safe amount privKey h nonce ev1 e ev2 E1 E2'). }
  unfold bind at 1. unfold fmt_Println at 1.
  unfold bind at 1. unfold lift at 1.
  destruct (encodedTxHash (gnosisSafeTx from to safe amount safeTxGas nonce))
    as [digest|e] eqn:E3.
  2:{ simpl.
      apply (BuildDigest_Failed net from to safe amount privKey h
               nonce ev1 safeTxGas ev2 e E1 E2' E3). }
  unfold bind at 1. unfold fmt_Println at 1.
  unfold bind at 1. unfold lift at 1.
  destruct (crypto_HexToECDSA privKey) as [key|e] eqn:E4.
  2:{ simpl.
      apply (Sign_Failed net from to safe amount privKey h
               nonce ev1 safeTxGas ev2 digest e E1 E2' E3). now left. }
  unfold bind at 1. unfold lift at 1.
  destruct (crypto_Sign (Hash_Bytes digest) key) as [sig|e] eqn:E5.
  2:{ simpl.
      apply (Sign_Failed net from to safe amount privKey h
               nonce ev1 safeTxGas ev2 digest e E1 E2' E3). right. eauto. }
  destruct (signature_normalized _ _ _ E5) as [sig' E6].
  unfold bind at 1. unfold lift at 1. rewrite E6.
  match goal with
  | |- context [sendGnosisTx ?n ?f ?t ?s ?a ?g ?c ?hx ?sg ?hist] =>
      destruct (sendGnosisTx_returns n f t s a g c hx sg hist) as (r & ev3 & E7 & _);
      rewrite E7
  end.
  simpl.
  apply (Submit_Done net from to safe amount privKey h
           nonce ev1 safeTxGas ev2 digest key sig sig' r ev3 E1 E2' E3 E4 E5 E6).
  rewrite <- E7. f_equal.
  unfold println_nonce, println_safeTxGas, println_digest.
  rewrite !app_nil_r, <- !app_assoc. reflexivity.
Qed.
End Orchestrator.

Section OrchestratorClaims.
Context {lib : Library}.

(** The requests of a run of the linear machine: the three requests of the
    three clients, in order, up to the step that ends the run. *)
Lemma linear_run_requests (net : Network) (from to safe : string) (amount : Z)
    (privKey : string) (h : list Event) (o : outcome unit) (evs : list Event) :
  linear_run net from to safe amount privKey h (o, evs) ->
  exists body,
    requests evs `prefix_of`
      [GET (nonce_url safe); estimate_post to safe amount;
       POST (submit_url safe) "application/json" body].
Proof.
  intros Hrun. inversion Hrun as
    [e ev1 E1
    |nonce ev1 e ev2 E1 E2
    |nonce ev1 safeTxGas ev2 e E1 E2 E3
    |nonce ev1 safeTxGas ev2 digest e E1 E2 E3 E4
    |nonce ev1 safeTxGas ev2 digest key sig sig' r ev3 E1 E2 E3 E4 E5 E6 E7]; subst;
  destruct (getSafeNonce_returns net safe h) as (r1 & ev1' & E1' & R1);
  rewrite E1 in E1'; inversion E1'; subst ev1'; clear E1'.
  - exists "". rewrite R1. eexists. reflexivity.
  - destruct (getGasEstimation_returns net to safe amount
                (h ++ ev1 ++ [println_nonce nonce])) as (r2 & ev2' & E2' & R2).
    rewrite E2 in E2'. inversion E2'; subst ev2'.
    exists "". requests_norm. rewrite R1, R2. eexists. reflexivity.
  - destruct (getGasEstimation_returns net to safe amount
                (h ++ ev1 ++ [println_nonce nonce])) as (r2 & ev2' & E2' & R2).
    rewrite E2 in E2'. inversion E2'; subst ev2'.
    exists "". requests_norm. rewrite R1, R2. eexists. reflexivity.
  - destruct (getGasEstimation_returns net to safe amount
                (h ++ ev1 ++ [println_nonce nonce])) as (r2 & ev2' & E2' & R2).
    rewrite E2 in E2'. inversion E2'; subst ev2'.
    exists "". requests_norm. rewrite R1, R2. eexists. reflexivity.
  - destruct (getGasEstimation_returns net to safe amount
                (h ++ ev1 ++ [println_nonce nonce])) as (r2 & ev2' & E2' & R2).
    rewrite E2 in E2'. inversion E2'; subst ev2'.
    match type of E7 with
    | sendGnosisTx ?n ?f ?t ?s ?a ?g ?c ?hx ?sg ?hist = _ =>
        destruct (sendGnosisTx_returns n f t s a g c hx sg hist) as (r3 & ev3' & E7' & R3)
    end.
    rewrite E7 in E7'. inversion E7'; subst ev3'.
    eexists. requests_norm. rewrite R1, R2, R3. exists []. reflexivity.
Qed.

(** C4.  A run of the orchestrator is a run of the linear machine: nonce
    fetch, gas estimate, digest, signature, submission, each once and in
    this order; the step that fails ends the run with its own error, and
    nothing is done after it.  The requests of a run are the head of the
    list of the three requests, none sent twice. *)
Theorem sendTransaction_linear_no_retry (net : Network) (from to safe : string)
    (amount : Z) (privKey : string) (h : list Event) :
  linear_run net from to safe amount privKey h
    (sendTransaction net from to safe amount privKey h) /\
  exists body,
    requests (snd (sendTransaction net from to safe amount privKey h)) `prefix_of`
      [GET (nonce_url safe); estimate_post to safe amount;
       POST (submit_url safe) "application/json" body].
Proof.
  split; [apply sendTransaction_linear_run|].
  pose proof (sendTransaction_linear_run net from to safe amount privKey h) as Hrun.
  destruct (sendTransaction net from to safe amount privKey h) as [o evs].
  exact (linear_run_requests _ _ _ _ _ _ _ _ _ Hrun).
Qed.
End OrchestratorClaims.

(** The run of the test double against the rejecting service is linear. *)
Lemma sendTransaction_linear_witness :
  linear_run (lib := Demo.library) Demo.rejecting Demo.from Demo.to Demo.safe 1000000
    Demo.privKey []
    (sendTransaction (lib := Demo.library) Demo.rejecting Demo.from Demo.to Demo.safe
       1000000 Demo.privKey []).
Proof.
  exact (proj1 (sendTransaction_linear_no_retry (lib := Demo.library) Demo.rejecting
                  Demo.from Demo.to Demo.safe 1000000 Demo.privKey [])).
Defined.

(** ** The submitter *)




Section Submitter.
Context {lib : Library}.
Variable net : Network.
Variables from to safe : string.
Variables amount safeTxGas nonce : Z.
Variables hash signature : string.
Variable h : list Event.

(** C5, amended.  On status 200 the submitter returns success whatever the
    body is, and does not read it; on any other status, the other 2xx
    included, it reads the body and returns an error. *)
Theorem status_200_is_success (resp : Response) :
  net h (submit_post from to safe amount safeTxGas nonce hash signature) = Ok resp ->
  (StatusCode resp = 200 ->
     sendGnosisTx net from to safe amount safeTxGas nonce hash signature h
     = (Return (Ok tt),
        [EvRequest (submit_post from to safe amount safeTxGas nonce hash signature)])) /\
  (StatusCode resp <> 200 ->
     exists e,
       sendGnosisTx net from to safe amount safeTxGas nonce hash signature h
       = (Return (Err e),
          [EvRequest (submit_post from to safe amount safeTxGas nonce hash signature);
           EvReadAll])).
Proof.
  intros Hnet. rewrite sendGnosisTx_run. cbv zeta. rewrite Hnet.
  split.
  - intros ->. reflexivity.
  - intros Hne. destruct (Z.eqb_spec (StatusCode resp) 200) as [E|_]; [contradiction|].
    destruct (Body resp) as [body|e]; [|eauto].
    destruct (json_Unmarshal _ body _) as [data|e]; eauto.
Qed.

End Submitter.

(** The signature of the test double, normalized. *)
Lemma recovery_id_normalization_witness :
  exists signature',
    normalizeRecoveryId (repeat x07 64 ++ [x01]) = Return (Ok signature') /\
    signature' !! 64%nat = Some x1c.
Proof.
  destruct (recovery_id_normalization (repeat x07 64 ++ [x01]) eq_refl)
    as (signature' & E & _ & Hv & _).
  exists signature'. split; [exact E|].
  exact (Hv x01 eq_refl).
Defined.

(** The accepting service of the test double answers 200. *)
Lemma status_200_is_success_witness :
  fst (sendGnosisTx (lib := Demo.library) Demo.accepting Demo.from Demo.to Demo.safe
         1000000 21000 5 "0x00" "0x01" [])
    = Return (Ok tt).
Proof.
  destruct (status_200_is_success (lib := Demo.library) Demo.accepting Demo.from Demo.to
              Demo.safe 1000000 21000 5 "0x00" "0x01" [] (mkResponse 200 (Ok ""))
              eq_refl) as [H200 _].
  rewrite (H200 eq_refl). reflexivity.
Defined.

(** C5 as stated fails: 201 is a success status, and on it the submitter
    reads the body and returns an error. *)
Lemma success_status_201_is_rejected :
  ~ (forall (lib : Library) (net : Network) (from to safe : string)
       (amount safeTxGas nonce : Z) (hash signature : string) (h : list Event)
       (resp : Response),
       net h (submit_post from to safe amount safeTxGas nonce hash signature) = Ok resp ->
       is_success_status (StatusCode resp) = true ->
       sendGnosisTx net from to safe amount safeTxGas nonce hash signature h
         = (Return (Ok tt),
            [EvRequest (submit_post from to safe amount safeTxGas nonce hash signature)])).
Proof.
  intros claim.
  specialize (claim Demo.library Demo.creating Demo.from Demo.to Demo.safe
                1000000 21000 5 "0x00" "0x01" [] (mkResponse 201 (Ok "{}"))
                eq_refl eq_refl).
  vm_compute in claim. discriminate claim.
Qed.


(** ** [strconv.ParseInt] reads base 10 *)

Lemma is_digit_spec (c : ascii) : is_digit c = true <-> 48 <= code c <= 57.
Proof.
  unfold is_digit, between. rewrite andb_true_iff, !Z.leb_le. tauto.
Qed.

Lemma digit_value_digit (c : ascii) :
  is_digit c = true -> digit_value c = Some (code c - 48).
Proof.
  intros Hd. unfold digit_value. unfold is_digit, between in Hd. now rewrite Hd.
Qed.

Lemma digit_value_other (c : ascii) :
  is_digit c = false ->
  digit_value c = None \/ exists d, digit_value c = Some d /\ 10 <= d.
Proof.
  intros Hd. unfold digit_value. unfold is_digit, between in Hd. rewrite Hd.
  destruct ((97 <=? Z.lor (code c) 32) && (Z.lor (code c) 32 <=? 122)) eqn:E.
  - right. eexists. split; [reflexivity|].
    apply andb_true_iff in E. destruct E as [E _]. apply Z.leb_le in E. lia.
  - now left.
Qed.

Lemma digits_value_ge (s : string) (acc : Z) :
  all_digits s = true -> 0 <= acc -> acc <= digits_value s acc.
Proof.
  revert acc. induction s as [|c r IH]; intros acc Hall Hacc; simpl; [lia|].
  simpl in Hall. apply andb_true_iff in Hall. destruct Hall as [Hc Hr].
  apply is_digit_spec in Hc.
  specialize (IH (acc * 10 + (code c - 48)) Hr). lia.
Qed.

Lemma maxUint64_eq : maxUint64 = 18446744073709551615.
Proof. reflexivity. Qed.

Lemma two_64_eq : 2 ^ 64 = 18446744073709551616.
Proof. reflexivity. Qed.

(** On digits the loop of [ParseUint] computes the value, or stops with a
    range error once the value is beyond [uint64]. *)
Lemma ParseUint_loop_digits (s : string) (n : Z) :
  all_digits s = true -> 0 <= n <= maxUint64 ->
  ParseUint_loop s n =
    if digits_value s n <=? maxUint64 then Ok (digits_value s n)
    else Err (NumError "ParseUint" "" ErrRange).
Proof.
  revert n. induction s as [|c r IH]; intros n Hall Hn; simpl.
  - destruct (Z.leb_spec n maxUint64); [reflexivity|lia].
  - simpl in Hall. apply andb_true_iff in Hall. destruct Hall as [Hc Hr].
    rewrite (digit_value_digit c Hc). apply is_digit_spec in Hc.
    set (d := code c - 48) in *.
    assert (Hd : 0 <= d <= 9) by (unfold d; lia).
    pose proof (digits_value_ge r (n * 10 + d) Hr) as Hge.
    rewrite maxUint64_eq in *. rewrite two_64_eq.
    destruct (Z.leb_spec 10 d) as [?|_]; [lia|].
    change (18446744073709551615 / 10 + 1) with 1844674407370955162.
    destruct (Z.leb_spec 1844674407370955162 n) as [Hcut|Hcut].
    + destruct (Z.leb_spec (digits_value r (n * 10 + d)) 18446744073709551615);
        [lia|reflexivity].
    + rewrite (Z.mod_small (n * 10)) by lia.
      destruct (Z_le_gt_dec (n * 10 + d) 18446744073709551615) as [Hfit|Hover].
      * rewrite (Z.mod_small (n * 10 + d)) by lia.
        destruct (Z.ltb_spec (n * 10 + d) (n * 10)) as [?|_]; [lia|].
        destruct (Z.ltb_spec 18446744073709551615 (n * 10 + d)) as [?|_]; [lia|].
        simpl. rewrite IH by (try assumption; lia). reflexivity.
      * assert (Hm : (n * 10 + d) mod 18446744073709551616
                     = n * 10 + d - 18446744073709551616).
        { symmetry. apply (Z.mod_unique _ _ 1); lia. }
        rewrite Hm.
        destruct (Z.ltb_spec (n * 10 + d - 18446744073709551616) (n * 10)) as [_|?]; [|lia].
        simpl.
        destruct (Z.leb_spec (digits_value r (n * 10 + d)) 18446744073709551615);
          [lia|reflexivity].
Qed.

(** A byte that is no digit stops the loop with an error. *)
Lemma ParseUint_loop_other (s : string) (n : Z) :
  all_digits s = false ->
  exists k, ParseUint_loop s n = Err (NumError "ParseUint" "" k).
Proof.
  revert n. induction s as [|c r IH]; intros n Hall; simpl in *; [discriminate|].
  destruct (is_digit c) eqn:Hc.
  - rewrite (digit_value_digit c Hc). simpl in Hall.
    destruct (10 <=? code c - 48); [eauto|].
    destruct (maxUint64 / 10 + 1 <=? n); [eauto|].
    match goal with |- context [if ?b then _ else _] => destruct b end; [eauto|].
    apply IH, Hall.
  - destruct (digit_value_other c Hc) as [E|(d & E & Hd)]; rewrite E; [eauto|].
    destruct (Z.leb_spec 10 d); [eauto|lia].
Qed.

(** The digits of an integer written in base 10, with its sign. *)
Lemma base10_integer_inv (s : string) (n : Z) :
  base10_integer s = Some n ->
  exists c r body,
    s = String c r /\
    body = (if Ascii.eqb c "+" || Ascii.eqb c "-" then r else s) /\
    body <> EmptyString /\ all_digits body = true /\
    n = (if Ascii.eqb c "-" then - digits_value body 0 else digits_value body 0).
Proof.
  destruct s as [|c r]; [discriminate|]. unfold base10_integer.
  set (body := if Ascii.eqb c "+" || Ascii.eqb c "-" then r else String c r).
  intros Hb. exists c, r, body. split; [reflexivity|]. split; [reflexivity|].
  destruct body as [|c' r'] eqn:Eb; [discriminate|].
  destruct (all_digits (String c' r')) eqn:Hall; [|discriminate].
  inversion Hb. repeat split. discriminate.
Qed.

Lemma ParseUint_digits (body : string) :
  body <> EmptyString -> all_digits body = true ->
  strconv_ParseUint body =
    if digits_value body 0 <=? maxUint64 then Ok (digits_value body 0)
    else Err (NumError "ParseUint" body ErrRange).
Proof.
  intros Hne Hall. unfold strconv_ParseUint.
  destruct body as [|c r]; [contradiction|].
  rewrite (ParseUint_loop_digits _ 0 Hall) by (rewrite maxUint64_eq; lia).
  destruct (digits_value (String c r) 0 <=? maxUint64); reflexivity.
Qed.

(** A base-10 integer within [int64] is parsed to its value. *)
Lemma ParseInt_valid (s : string) (n : Z) :
  base10_integer s = Some n -> - 2 ^ 63 <= n < 2 ^ 63 ->
  strconv_ParseInt s = Ok n.
Proof.
  intros Hb Hr. destruct (base10_integer_inv s n Hb) as (c & r & body & -> & Eb & Hne & Hall & ->).
  unfold strconv_ParseInt. rewrite <- Eb.
  rewrite (ParseUint_digits body Hne Hall).
  pose proof (digits_value_ge body 0 Hall) as Hge.
  change (2 ^ 63) with 9223372036854775808 in *. rewrite maxUint64_eq.
  destruct (Ascii.eqb c "-"); simpl.
  - destruct (Z.leb_spec (digits_value body 0) 18446744073709551615); [|lia].
    destruct (Z.ltb_spec 9223372036854775808 (digits_value body 0)); [lia|reflexivity].
  - destruct (Z.leb_spec (digits_value body 0) 18446744073709551615); [|lia].
    destruct (Z.leb_spec 9223372036854775808 (digits_value body 0)); [lia|reflexivity].
Qed.

(** A base-10 integer beyond [int64] is a range error. *)
Lemma ParseInt_out_of_range (s : string) (n : Z) :
  base10_integer s = Some n -> ~ (- 2 ^ 63 <= n < 2 ^ 63) ->
  strconv_ParseInt s = Err (NumError "ParseInt" s ErrRange).
Proof.
  intros Hb Hr. destruct (base10_integer_inv s n Hb) as (c & r & body & -> & Eb & Hne & Hall & ->).
  unfold strconv_ParseInt. rewrite <- Eb.
  rewrite (ParseUint_digits body Hne Hall).
  pose proof (digits_value_ge body 0 Hall) as Hge.
  change (2 ^ 63) with 9223372036854775808 in *. rewrite maxUint64_eq.
  destruct (Z.leb_spec (digits_value body 0) 18446744073709551615); [|reflexivity].
  destruct (Ascii.eqb c "-"); simpl.
  - destruct (Z.ltb_spec 9223372036854775808 (digits_value body 0)); [reflexivity|lia].
  - destruct (Z.leb_spec 9223372036854775808 (digits_value body 0)); [reflexivity|lia].
Qed.

(** A string that writes no base-10 integer is an error. *)
Lemma ParseInt_invalid (s : string) :
  base10_integer s = None ->
  exists k, strconv_ParseInt s = Err (NumError "ParseInt" s k).
Proof.
  destruct s as [|c r]; [eauto|]. unfold base10_integer, strconv_ParseInt.
  set (body := if Ascii.eqb c "+" || Ascii.eqb c "-" then r else String c r).
  intros Hb.
  assert (Hu : exists k, strconv_ParseUint body = Err (NumError "ParseUint" body k)).
  { destruct body as [|c' r'] eqn:Eb; [eexists; reflexivity|].
    destruct (all_digits (String c' r')) eqn:Hall; [discriminate|].
    destruct (ParseUint_loop_other (String c' r') 0 Hall) as [k Hk].
    exists k. unfold strconv_ParseUint. rewrite Hk. reflexivity. }
  destruct Hu as [k Hk]. rewrite Hk. destruct k; eauto.
Qed.

Section Estimator.
Context {lib : Library}.

(** C7.  The estimator parses [safeTxGas] as an integer in base 10: the
    string "21000" gives 21000, every base-10 integer of 64 bits gives its
    value, and a string that writes no base-10 integer, "abc" for one,
    makes the step fail with the error of [strconv.ParseInt]. *)
Theorem estimator_parses_base10 (net : Network) (to safe : string) (value : Z)
    (h : list Event) (resp : Response) (body : string) (data : gasEstimationResponse.t) :
  net h (estimate_post to safe value) = Ok resp ->
  Body resp = Ok body ->
  json_Unmarshal gasEstimationResponse.type body (zero gasEstimationResponse.type)
    = Ok data ->
  let s := gasEstimationResponse.SafeTxGas data in
  let r := fst (getGasEstimation net to safe value h) in
  (s = "21000" -> r = Return (Ok 21000)) /\
  (forall n, base10_integer s = Some n -> - 2 ^ 63 <= n < 2 ^ 63 -> r = Return (Ok n)) /\
  (base10_integer s = None -> exists k, r = Return (Err (NumError "ParseInt" s k))) /\
  (s = "abc" -> r = Return (Err (NumError "ParseInt" "abc" ErrSyntax))).
Proof.
  intros Hnet Hbody Hdec s r.
  assert (Hr : r = Return (strconv_ParseInt s)).
  { unfold r. rewrite getGasEstimation_run, Hnet. cbn [fst]. rewrite Hbody, Hdec.
    reflexivity. }
  rewrite Hr. repeat split.
  - intros ->. reflexivity.
  - intros n Hb Hrange. now rewrite (ParseInt_valid s n Hb Hrange).
  - intros Hb. destruct (ParseInt_invalid s Hb) as [k Hk]. exists k. now rewrite Hk.
  - intros ->. reflexivity.
Qed.
End Estimator.

(** The estimate of the test double is "21000". *)
Lemma estimator_parses_base10_witness :
  fst (getGasEstimation (lib := Demo.library) Demo.accepting Demo.to Demo.safe 1000000 [])
    = Return (Ok 21000).
Proof.
  destruct (estimator_parses_base10 (lib := Demo.library) Demo.accepting Demo.to Demo.safe
              1000000 [] (mkResponse 200 (Ok (q "{'safeTxGas': '21000', 'lastUsedNonce': null}")))
              (q "{'safeTxGas': '21000', 'lastUsedNonce': null}")
              (gasEstimationResponse.mk "21000" "" "" "" "" 0 "" "")
              eq_refl eq_refl eq_refl) as (H21000 & _).
  exact (H21000 eq_refl).
Defined.

(** ** The proposal that is submitted *)

Lemma In_requests (r : Request) (evs : list Event) :
  In (EvRequest r) evs -> In r (requests evs).
Proof.
  intros Hin. apply list_elem_of_In. unfold requests. apply list_elem_of_omap.
  exists (EvRequest r). split; [now apply list_elem_of_In|reflexivity].
Qed.

Section Proposal.
Context {lib : Library}.

Lemma estimate_post_not_submit (to safe safe' : string) (value : Z)
    (contentType body : string) :
  estimate_post to safe value <> POST (submit_url safe') contentType body.
Proof.
  unfold estimate_post, estimate_url, submit_url. simpl. discriminate.
Qed.

(** A run that posts to the submission URL has gone through all the steps
    before, and posts the proposal [sendGnosisTx] builds from what they
    gave. *)
Lemma submitted_proposal (net : Network) (from to safe : string) (amount : Z)
    (privKey : string) (h : list Event) (contentType body : string) :
  In (EvRequest (POST (submit_url safe) contentType body))
     (snd (sendTransaction net from to safe amount privKey h)) ->
  exists nonce ev1 safeTxGas ev2 digest key sig sig',
    getSafeNonce net safe h = (Return (Ok nonce), ev1) /\
    getGasEstimation net to safe amount (h ++ ev1 ++ [println_nonce nonce])
      = (Return (Ok safeTxGas), ev2) /\
    encodedTxHash (gnosisSafeTx from to safe amount safeTxGas nonce) = Ok digest /\
    crypto_HexToECDSA privKey = Ok key /\
    crypto_Sign (Hash_Bytes digest) key = Ok sig /\
    normalizeRecoveryId sig = Return (Ok sig') /\
    contentType = "application/json" /\
    body = encode_gnosisTxRequest
             (proposal from to amount safeTxGas nonce
                (Hash_Hex digest) (hexutil_Encode sig')).
Proof.
  pose proof (sendTransaction_linear_run net from to safe amount privKey h) as Hrun.
  destruct (sendTransaction net from to safe amount privKey h) as [o evs]. simpl.
  intros Hin. apply In_requests in Hin. revert Hin.
  inversion Hrun as
    [e ev1 E1
    |nonce ev1 e ev2 E1 E2
    |nonce ev1 safeTxGas ev2 e E1 E2 E3
    |nonce ev1 safeTxGas ev2 digest e E1 E2 E3 E4
    |nonce ev1 safeTxGas ev2 digest key sig sig' r ev3 E1 E2 E3 E4 E5 E6 E7]; subst;
  destruct (getSafeNonce_returns net safe h) as (r1 & ev1' & E1' & R1);
  rewrite E1 in E1'; inversion E1'; subst ev1'; clear E1';
  try (destruct (getGasEstimation_returns net to safe amount
                   (h ++ ev1 ++ [println_nonce nonce])) as (r2 & ev2' & E2' & R2);
       rewrite E2 in E2'; inversion E2'; subst ev2'; clear E2');
  requests_norm; rewrite ?R1, ?R2; cbn [app In].
  - intros [Hin|[]]. discriminate Hin.
  - intros [Hin|[Hin|[]]]; [discriminate Hin|].
    now apply estimate_post_not_submit in Hin.
  - intros [Hin|[Hin|[]]]; [discriminate Hin|].
    now apply estimate_post_not_submit in Hin.
  - intros [Hin|[Hin|[]]]; [discriminate Hin|].
    now apply estimate_post_not_submit in Hin.
  - match type of E7 with
    | sendGnosisTx ?n ?f ?t ?s ?a ?g ?c ?hx ?sg ?hist = _ =>
        destruct (sendGnosisTx_returns n f t s a g c hx sg hist) as (r3 & ev3' & E7' & R3)
    end.
    rewrite E7 in E7'. inversion E7'; subst ev3'. rewrite R3. cbn [app In].
    intros [Hin|[Hin|[Hin|[]]]]; [discriminate Hin| |].
    + now apply estimate_post_not_submit in Hin.
    + unfold submit_post in Hin. inversion Hin as [[Hct Hbody]].
      exists nonce, ev1, safeTxGas, ev2, digest, key, sig, sig'.
      repeat split; assumption || reflexivity.
Qed.
End Proposal.

(** ** Hex encoding loses nothing *)

Lemma hex_byte_of_digits (x : byte) :
  hex_byte (hex_digit (Byte.to_N x / 16)) (hex_digit (Byte.to_N x mod 16)) = Some x.
Proof. destruct x; reflexivity. Qed.

Lemma hex_EncodeToString_inj (a b : list byte) :
  hex_EncodeToString a = hex_EncodeToString b -> a = b.
Proof.
  revert b. induction a as [|x a IH]; intros [|y b] E; simpl in E;
    try discriminate; [reflexivity|].
  inversion E as [[Hhi Hlo Hrest]].
  pose proof (hex_byte_of_digits x) as Hx. rewrite Hhi, Hlo, hex_byte_of_digits in Hx.
  inversion Hx. subst y. f_equal. now apply IH.
Qed.

Lemma hexutil_Encode_inj (a b : list byte) :
  hexutil_Encode a = hexutil_Encode b -> a = b.
Proof.
  unfold hexutil_Encode. simpl. intros E. inversion E. now apply hex_EncodeToString_inj.
Qed.

Section ProposalClaims.
Context {lib : Library}.
Variable net : Network.
Variables from to safe : string.
Variable amount : Z.
Variable privKey : string.
Variable h : list Event.
Variables contentType body : string.


(** C10.  The proposal a run submits agrees with what was signed: its
    [contractTransactionHash] is the hex encoding of the digest bytes given
    to [crypto.Sign], and of no other bytes, and its [signature] is the hex
    encoding of the signature made over that digest with the key of the
    run, its recovery id normalized. *)
Theorem proposal_matches_signature :
  In (EvRequest (POST (submit_url safe) contentType body))
     (snd (sendTransaction net from to safe amount privKey h)) ->
  exists digest key sig sig' request,
    crypto_HexToECDSA privKey = Ok key /\
    crypto_Sign (Hash_Bytes digest) key = Ok sig /\
    normalizeRecoveryId sig = Return (Ok sig') /\
    body = encode_gnosisTxRequest request /\
    gnosisTxRequest.ContractTransactionHash request = hexutil_Encode (Hash_Bytes digest) /\
    (forall bytes,
       gnosisTxRequest.ContractTransactionHash request = hexutil_Encode bytes ->
       bytes = Hash_Bytes digest) /\
    gnosisTxRequest.Signature request = hexutil_Encode sig'.
Proof.
  intros Hin.
  destruct (submitted_proposal _ _ _ _ _ _ _ _ _ Hin)
    as (nonce & ev1 & safeTxGas & ev2 & digest & key & sig & sig'
        & E1 & E2 & E3 & E4 & E5 & E6 & Hct & Hbody).
  exists digest, key, sig, sig',
    (proposal from to amount safeTxGas nonce (Hash_Hex digest) (hexutil_Encode sig')).
  repeat split; try assumption.
  intros bytes Hb. symmetry. now apply hexutil_Encode_inj.
Qed.
End ProposalClaims.

(** The proposal posted to the accepting service of the test double. *)
Lemma demo_posted :
  In (EvRequest (POST (submit_url Demo.safe) "application/json" Demo.posted))
     (snd (sendTransaction (lib := Demo.library) Demo.accepting Demo.from Demo.to
             Demo.safe 1000000 Demo.privKey [])).
Proof. vm_compute. do 7 right. left. reflexivity. Qed.


Lemma proposal_matches_signature_witness :
  exists digest sig' request,
    Demo.posted = @encode_gnosisTxRequest Demo.library request /\
    gnosisTxRequest.ContractTransactionHash request = hexutil_Encode (Hash_Bytes digest) /\
    gnosisTxRequest.Signature request = hexutil_Encode sig'.
Proof.
  destruct (proposal_matches_signature (lib := Demo.library) Demo.accepting Demo.from
              Demo.to Demo.safe 1000000 Demo.privKey [] "application/json" Demo.posted
              demo_posted)
    as (digest & key & sig & sig' & request & _ & _ & _ & Hbody & Hhash & _ & Hsig).
  exists digest, sig', request. repeat split; assumption.
Defined.

(** ** The digest of a run depends on the transaction alone *)

Lemma printed_digest_silent (evs rest : list Event) :
  silent evs = true -> printed_digest (evs ++ rest) = printed_digest rest.
Proof.
  induction evs as [|ev evs IH]; intros Hs; [reflexivity|].
  simpl in Hs. apply andb_true_iff in Hs. destruct Hs as [Hev Hs].
  destruct ev; try discriminate; simpl; now apply IH.
Qed.

Lemma getSafeNonce_silent (net : Network) (safe : string) (h : list Event) :
  silent (snd (getSafeNonce net safe h)) = true.
Proof. rewrite getSafeNonce_run. destruct (net h _); reflexivity. Qed.

Section DigestOfRun.
Context {lib : Library}.

Lemma getGasEstimation_silent (net : Network) (to safe : string) (value : Z)
    (h : list Event) :
  silent (snd (getGasEstimation net to safe value h)) = true.
Proof. rewrite getGasEstimation_run. destruct (net h _); reflexivity. Qed.


(** What a run fetched, step by step. *)
Lemma fetch_inv (net : Network) (to safe : string) (amount : Z) (h : list Event)
    (nonce safeTxGas : Z) :
  fst (fetch net to safe amount h) = Return (Ok (nonce, safeTxGas)) ->
  exists ev1 ev2,
    getSafeNonce net safe h = (Return (Ok nonce), ev1) /\
    getGasEstimation net to safe amount (h ++ ev1 ++ [println_nonce nonce])
      = (Return (Ok safeTxGas), ev2).
Proof.
  unfold fetch, bind, fmt_Println, ret, println_nonce.
  destruct (getSafeNonce net safe h) as [[[n|e]|msg] ev1]; try discriminate.
  destruct (getGasEstimation net to safe amount _) as [[[g|e]|msg] ev2] eqn:E2;
    try discriminate.
  simpl. intros E. inversion E. subst.
  exists ev1, ev2. split; [reflexivity|]. rewrite app_assoc. exact E2.
Qed.

(** A run that fetched a nonce and a gas figure prints the digest of the
    transaction they give, if that has one, and no other. *)
Lemma run_printed_digest (net : Network) (from to safe : string) (amount : Z)
    (privKey : string) (h : list Event) (nonce safeTxGas : Z) :
  fst (fetch net to safe amount h) = Return (Ok (nonce, safeTxGas)) ->
  printed_digest (snd (sendTransaction net from to safe amount privKey h)) =
    match encodedTxHash (gnosisSafeTx from to safe amount safeTxGas nonce) with
    | Ok digest => Some (Hash_Hex digest)
    | Err _ => None
    end.
Proof.
  intros Hf. destruct (fetch_inv _ _ _ _ _ _ _ Hf) as (ev1 & ev2 & F1 & F2).
  pose proof (getSafeNonce_silent net safe h) as S1. rewrite F1 in S1. simpl in S1.
  pose proof (getGasEstimation_silent net to safe amount
                (h ++ ev1 ++ [println_nonce nonce])) as S2.
  rewrite F2 in S2. simpl in S2.
  pose proof (sendTransaction_linear_run net from to safe amount privKey h) as Hrun.
  destruct (sendTransaction net from to safe amount privKey h) as [o evs]. simpl.
  inversion Hrun as
    [e ev1' E1
    |nonce' ev1' e ev2' E1 E2
    |nonce' ev1' safeTxGas' ev2' e E1 E2 E3
    |nonce' ev1' safeTxGas' ev2' digest e E1 E2 E3 E4
    |nonce' ev1' safeTxGas' ev2' digest key sig sig' r ev3 E1 E2 E3 E4 E5 E6 E7];
    subst; rewrite F1 in E1; inversion E1; subst;
    try (rewrite F2 in E2; inversion E2; subst).
  - rewrite E3.
    rewrite (printed_digest_silent ev1') by assumption. simpl.
    rewrite (printed_digest_silent ev2') by assumption. reflexivity.
  - rewrite E3.
    rewrite (printed_digest_silent ev1') by assumption. simpl.
    rewrite (printed_digest_silent ev2') by assumption. reflexivity.
  - rewrite E3.
    rewrite (printed_digest_silent ev1') by assumption. simpl.
    rewrite (printed_digest_silent ev2') by assumption. reflexivity.
Qed.

(** C2.  Two runs that fetched the same nonce and the same gas figure, for
    the same sender, account, destination and value, have the same digest,
    whatever the service, the history and the private key of each: the one
    digest of the transaction these six values give, 32 bytes long. *)
Theorem digest_deterministic (net1 net2 : Network) (h1 h2 : list Event)
    (key1 key2 : string) (from to safe : string) (amount nonce safeTxGas : Z) :
  fst (fetch net1 to safe amount h1) = Return (Ok (nonce, safeTxGas)) ->
  fst (fetch net2 to safe amount h2) = Return (Ok (nonce, safeTxGas)) ->
  let evs1 := snd (sendTransaction net1 from to safe amount key1 h1) in
  let evs2 := snd (sendTransaction net2 from to safe amount key2 h2) in
  printed_digest evs1 = printed_digest evs2 /\
  (forall digest,
     encodedTxHash (gnosisSafeTx from to safe amount safeTxGas nonce) = Ok digest ->
     printed_digest evs1 = Some (Hash_Hex digest) /\
     length (Hash_Bytes digest) = 32%nat) /\
  (forall digest1 digest2 : Hash,
     printed_digest evs1 = Some (Hash_Hex digest1) ->
     printed_digest evs2 = Some (Hash_Hex digest2) ->
     Hash_Bytes digest1 = Hash_Bytes digest2).
Proof.
  intros F1 F2 evs1 evs2. unfold evs1, evs2.
  rewrite (run_printed_digest net1 from to safe amount key1 h1 nonce safeTxGas F1).
  rewrite (run_printed_digest net2 from to safe amount key2 h2 nonce safeTxGas F2).
  split; [reflexivity|]. split.
  - intros digest ->. split; [reflexivity|apply Hash_length].
  - intros digest1 digest2.
    destruct (encodedTxHash _) as [digest|e]; [|discriminate].
    intros E1 E2.
    assert (E1' : Hash_Hex digest = Hash_Hex digest1) by congruence.
    assert (E2' : Hash_Hex digest = Hash_Hex digest2) by congruence.
    apply hexutil_Encode_inj in E1', E2'. congruence.
Qed.
End DigestOfRun.

(** Two runs of the test double, against two services, from two histories
    and with two keys, print one digest. *)
Lemma digest_deterministic_witness :
  printed_digest (snd (sendTransaction (lib := Demo.library) Demo.accepting Demo.from
                         Demo.to Demo.safe 1000000 Demo.privKey []))
  = printed_digest (snd (sendTransaction (lib := Demo.library) Demo.rejecting Demo.from
                           Demo.to Demo.safe 1000000 "00" [EvReadAll])).
Proof.
  exact (proj1 (digest_deterministic (lib := Demo.library) Demo.accepting Demo.rejecting
                  [] [EvReadAll] Demo.privKey "00" Demo.from Demo.to Demo.safe
                  1000000 5 21000 eq_refl eq_refl)).
Defined.

(** ** The two fetching steps *)

Lemma saveError_None (e : option error) : saveError None e = e.
Proof. reflexivity. Qed.

Lemma store_string_error (j : json) (cur x : string) (e : error) :
  store_string j cur = (x, Some e) -> exists v t, e = UnmarshalTypeError v t.
Proof. destruct j; simpl; intros E; inversion E; eauto. Qed.

Lemma store_int64_error (j : json) (cur x : Z) (e : error) :
  store_int64 j cur = (x, Some e) -> exists v t, e = UnmarshalTypeError v t.
Proof.
  destruct j; simpl; intros E; try (inversion E; eauto; fail).
  destruct (strconv_ParseInt literal); inversion E; eauto.
Qed.

Lemma store_elems_error (elems : list json) (cur xs : list string) (e : error) :
  store_elems elems cur = (xs, Some e) -> exists v t, e = UnmarshalTypeError v t.
Proof.
  revert cur xs. induction elems as [|j elems IH]; intros cur xs; simpl; [discriminate|].
  destruct (store_string j (hd "" cur)) as [x e1] eqn:E1.
  destruct (store_elems elems (tl cur)) as [ys e2] eqn:E2.
  intros E. inversion E as [[Hxs He]].
  destruct e1 as [e1|]; simpl in He.
  - inversion He. subst. eapply store_string_error, E1.
  - subst e2. eapply IH, E2.
Qed.

Lemma store_strings_error (j : json) (cur xs : list string) (e : error) :
  store_strings j cur = (xs, Some e) -> exists v t, e = UnmarshalTypeError v t.
Proof.
  destruct j; simpl; intros E; try (inversion E; eauto; fail).
  eapply store_elems_error, E.
Qed.

Lemma find_exact_In {S} (key : string) (fs : list (field S)) (f : field S) :
  find_exact key fs = Some f -> In f fs.
Proof.
  induction fs as [|g fs IH]; simpl; [discriminate|].
  destruct (String.eqb (field_name g) key); intros E.
  - inversion E. now left.
  - right. now apply IH.
Qed.

Lemma find_fold_In {S} (key : string) (fs : list (field S)) (f : field S) :
  find_fold key fs = Some f -> In f fs.
Proof.
  induction fs as [|g fs IH]; simpl; [discriminate|].
  destruct (String.eqb (foldName (field_name g)) (foldName key)); intros E.
  - inversion E. now left.
  - right. now apply IH.
Qed.

Lemma find_field_In {S} (key : string) (fs : list (field S)) (f : field S) :
  find_field key fs = Some f -> In f fs.
Proof.
  unfold find_field. destruct (find_exact key fs) as [g|] eqn:E.
  - intros E'. inversion E'. subst. eapply find_exact_In, E.
  - apply find_fold_In.
Qed.

Lemma decode_members_error {S} (ty : StructType S) (members : list (string * json))
    (v v' : S) (saved : option error) (e : error) :
  type_errors_only ty ->
  (forall e0, saved = Some e0 -> exists val t, e0 = UnmarshalTypeError val t) ->
  decode_members (fields ty) members v saved = (v', Some e) ->
  exists val t, e = UnmarshalTypeError val t.
Proof.
  intros Hty. revert v saved.
  induction members as [|[key j] members IH]; intros v saved Hsaved; simpl.
  - intros E. inversion E. subst. now apply Hsaved.
  - destruct (find_field key (fields ty)) as [f|] eqn:Ef; [|now apply IH].
    destruct (field_store f j v) as [v1 e1] eqn:Es.
    apply IH. intros e0. destruct saved as [e'|]; simpl.
    + apply Hsaved.
    + intros ->. eapply Hty; [eapply find_field_In, Ef|exact Es].
Qed.

Lemma decode_struct_error {S} (ty : StructType S) (j : json) (v : S) (e : error) :
  type_errors_only ty ->
  decode_struct ty j v = Err e -> exists val t, e = UnmarshalTypeError val t.
Proof.
  intros Hty. destruct j; simpl; intros E; try (inversion E; eauto; fail).
  destruct (decode_members (fields ty) members v None) as [v' [e'|]] eqn:Ed;
    inversion E. subst.
  eapply decode_members_error; [exact Hty| |exact Ed]. discriminate.
Qed.

(** One goal for each field of a list of fields. *)
Ltac each_field H :=
  simpl in H; repeat (destruct H as [<-|H]); [..|contradiction].

Lemma safeNonceResponse_type_errors : type_errors_only safeNonceResponse.type.
Proof.
  intros f Hin j d d' e. each_field Hin; cbn [field_store];
    unfold safeNonceResponse.via;
    match goal with
    | |- context [store_string ?a ?b] =>
        destruct (store_string a b) as [x e'] eqn:E; intros E'; inversion E'; subst;
        eapply store_string_error, E
    | |- context [store_int64 ?a ?b] =>
        destruct (store_int64 a b) as [x e'] eqn:E; intros E'; inversion E'; subst;
        eapply store_int64_error, E
    | |- context [store_strings ?a ?b] =>
        destruct (store_strings a b) as [x e'] eqn:E; intros E'; inversion E'; subst;
        eapply store_strings_error, E
    end.
Qed.

Lemma gasEstimationResponse_type_errors : type_errors_only gasEstimationResponse.type.
Proof.
  intros f Hin j d d' e. each_field Hin; cbn [field_store];
    unfold gasEstimationResponse.via;
    match goal with
    | |- context [store_string ?a ?b] =>
        destruct (store_string a b) as [x e'] eqn:E; intros E'; inversion E'; subst;
        eapply store_string_error, E
    | |- context [store_int64 ?a ?b] =>
        destruct (store_int64 a b) as [x e'] eqn:E; intros E'; inversion E'; subst;
        eapply store_int64_error, E
    end.
Qed.

(** The errors of [strconv.ParseInt] are its own. *)
Lemma ParseInt_error (s : string) (e : error) :
  strconv_ParseInt s = Err e -> exists k, e = NumError "ParseInt" s k.
Proof.
  unfold strconv_ParseInt. destruct s as [|c r]; [intros E; inversion E; eauto|].
  destruct (strconv_ParseUint _) as [un|[]];
    repeat match goal with
           | |- context [if ?b then _ else _] => destruct b
           | |- context [match ?k with ErrSyntax => _ | ErrRange => _ end] => destruct k
           end;
    intros E; inversion E; eauto.
Qed.

Lemma find_exact_matches {S} (key : string) (fs : list (field S)) (f : field S) :
  find_exact key fs = Some f -> In f fs /\ foldName (field_name f) = foldName key.
Proof.
  induction fs as [|g fs IH]; simpl; [discriminate|].
  destruct (String.eqb (field_name g) key) eqn:E; intros E'.
  - inversion E'. subst. apply String.eqb_eq in E. rewrite E. auto.
  - destruct (IH E'). auto.
Qed.

Lemma find_fold_matches {S} (key : string) (fs : list (field S)) (f : field S) :
  find_fold key fs = Some f -> In f fs /\ foldName (field_name f) = foldName key.
Proof.
  induction fs as [|g fs IH]; simpl; [discriminate|].
  destruct (String.eqb (foldName (field_name g)) (foldName key)) eqn:E; intros E'.
  - inversion E'. subst. apply String.eqb_eq in E. auto.
  - destruct (IH E'). auto.
Qed.

(** The field found for a key has the name of the key, case apart. *)
Lemma find_field_matches {S} (key : string) (fs : list (field S)) (f : field S) :
  find_field key fs = Some f -> In f fs /\ foldName (field_name f) = foldName key.
Proof.
  unfold find_field. destruct (find_exact key fs) as [g|] eqn:E.
  - intros E'. inversion E'. subst. eapply find_exact_matches, E.
  - apply find_fold_matches.
Qed.

(** A key that does not name the nonce leaves the nonce as it is. *)
Lemma other_field_keeps_Nonce (key : string) (f : field safeNonceResponse.t)
    (j : json) (d : safeNonceResponse.t) :
  find_field key (fields safeNonceResponse.type) = Some f ->
  String.eqb (foldName key) (foldName "nonce") = false ->
  safeNonceResponse.Nonce (fst (field_store f j d)) = safeNonceResponse.Nonce d.
Proof.
  intros Hf Hkey. apply find_field_matches in Hf. destruct Hf as [Hin Hname].
  each_field Hin; cbn [field_store field_name] in *; unfold safeNonceResponse.via;
    try (rewrite <- Hname in Hkey; discriminate Hkey);
    match goal with
    | |- context [let (_, _) := ?s in _] => destruct s
    end; destruct d; reflexivity.
Qed.

Lemma decode_members_keeps_Nonce (members : list (string * json))
    (v : safeNonceResponse.t) (saved : option error) :
  lacks_field "nonce" members = true ->
  safeNonceResponse.Nonce
    (fst (decode_members (fields safeNonceResponse.type) members v saved))
  = safeNonceResponse.Nonce v.
Proof.
  revert v saved. induction members as [|[key j] members IH]; intros v saved Hl;
    [reflexivity|].
  simpl in Hl. apply andb_true_iff in Hl. destruct Hl as [Hk Hl].
  apply negb_true_iff in Hk.
  cbn [decode_members].
  destruct (find_field key (fields safeNonceResponse.type)) as [f|] eqn:Ef.
  - pose proof (other_field_keeps_Nonce key f j v Ef Hk) as Hkeep.
    destruct (field_store f j v) as [v1 e1]. simpl in Hkeep.
    rewrite (IH v1 _ Hl). exact Hkeep.
  - now apply IH.
Qed.

(** A document without a nonce that decodes leaves the nonce 0. *)
Lemma Unmarshal_lacks_nonce (body : string) (data : safeNonceResponse.t) :
  json_Unmarshal safeNonceResponse.type body (zero safeNonceResponse.type) = Ok data ->
  (json_parse body = Some JNull \/
   exists members, json_parse body = Some (JObject members) /\
                   lacks_field "nonce" members = true) ->
  safeNonceResponse.Nonce data = 0.
Proof.
  unfold json_Unmarshal. intros Hdec [Hp|(members & Hp & Hl)]; rewrite Hp in Hdec.
  - inversion Hdec. reflexivity.
  - unfold decode_struct in Hdec.
    pose proof (decode_members_keeps_Nonce members (zero safeNonceResponse.type) None Hl)
      as Hkeep.
    destruct (decode_members _ members _ None) as [v' [e|]]; inversion Hdec.
    subst. exact Hkeep.
Qed.

(** A decoding that fails is a fetch failure. *)
Lemma Unmarshal_failure {S} (net : Network) (h : list Event) (req : Request)
    (ty : StructType S) (resp : Response) (body : string) (e : error) :
  type_errors_only ty ->
  net h req = Ok resp -> Body resp = Ok body ->
  json_Unmarshal ty body (zero ty) = Err e ->
  fetch_failure net h req ty e.
Proof.
  intros Hty Hnet Hbody. unfold json_Unmarshal.
  destruct (json_parse body) as [j|] eqn:Hp; intros E.
  - destruct (decode_struct_error ty j _ e Hty E) as (v & t & ->).
    eapply SchemaMismatch; eauto.
  - inversion E. eapply NotJSON; eauto.
Qed.

Lemma with_status_getSafeNonce (f : Z -> Z) (net : Network) (safe : string)
    (h : list Event) :
  getSafeNonce (with_status f net) safe h = getSafeNonce net safe h.
Proof.
  rewrite !getSafeNonce_run. unfold with_status.
  destruct (net h _) as [resp|e]; reflexivity.
Qed.

Section Fetching.
Context {lib : Library}.

Lemma with_status_getGasEstimation (f : Z -> Z) (net : Network) (to safe : string)
    (value : Z) (h : list Event) :
  getGasEstimation (with_status f net) to safe value h
  = getGasEstimation net to safe value h.
Proof.
  rewrite !getGasEstimation_run. unfold with_status.
  destruct (net h _) as [resp|e]; reflexivity.
Qed.

(** C9, amended.  The nonce fetch and the gas estimate do not look at the
    status code: with the status codes changed at will they do the same.
    On a body that [json.Unmarshal] decodes into the response struct they
    succeed, the estimate where its [safeTxGas] parses; a decoded object
    without a nonce, or [null], gives the nonce 0.  They fail when the
    transport fails, the body cannot be read, the body is no JSON document
    or the document does not fit the struct, and for the estimate when
    [safeTxGas] does not parse. *)
Theorem fetching_ignores_status (net : Network) (to safe : string) (value : Z)
    (h : list Event) :
  (forall f,
     getSafeNonce (with_status f net) safe h = getSafeNonce net safe h /\
     getGasEstimation (with_status f net) to safe value h
     = getGasEstimation net to safe value h) /\
  (forall resp body data,
     net h (GET (nonce_url safe)) = Ok resp -> Body resp = Ok body ->
     json_Unmarshal safeNonceResponse.type body (zero safeNonceResponse.type)
       = Ok data ->
     fst (getSafeNonce net safe h) = Return (Ok (safeNonceResponse.Nonce data)) /\
     (json_parse body = Some JNull \/
      (exists members, json_parse body = Some (JObject members) /\
                       lacks_field "nonce" members = true) ->
      fst (getSafeNonce net safe h) = Return (Ok 0))) /\
  (forall resp body data n,
     net h (estimate_post to safe value) = Ok resp -> Body resp = Ok body ->
     json_Unmarshal gasEstimationResponse.type body (zero gasEstimationResponse.type)
       = Ok data ->
     strconv_ParseInt (gasEstimationResponse.SafeTxGas data) = Ok n ->
     fst (getGasEstimation net to safe value h) = Return (Ok n)) /\
  (forall e,
     fst (getSafeNonce net safe h) = Return (Err e) ->
     fetch_failure net h (GET (nonce_url safe)) safeNonceResponse.type e) /\
  (forall e,
     fst (getGasEstimation net to safe value h) = Return (Err e) ->
     fetch_failure net h (estimate_post to safe value) gasEstimationResponse.type e \/
     exists resp body data k,
       net h (estimate_post to safe value) = Ok resp /\ Body resp = Ok body /\
       json_Unmarshal gasEstimationResponse.type body
         (zero gasEstimationResponse.type) = Ok data /\
       e = NumError "ParseInt" (gasEstimationResponse.SafeTxGas data) k).
Proof.
  split; [|split; [|split; [|split]]].
  - intros f. split;
      [apply with_status_getSafeNonce|apply with_status_getGasEstimation].
  - intros resp body data Hnet Hbody Hdec.
    assert (Hrun : fst (getSafeNonce net safe h)
                   = Return (Ok (safeNonceResponse.Nonce data))).
    { rewrite getSafeNonce_run, Hnet. cbn [fst]. now rewrite Hbody, Hdec. }
    split; [exact Hrun|].
    intros Hlacks. rewrite Hrun.
    now rewrite (Unmarshal_lacks_nonce body data Hdec Hlacks).
  - intros resp body data n Hnet Hbody Hdec Hparse.
    rewrite getGasEstimation_run, Hnet. cbn [fst]. now rewrite Hbody, Hdec, Hparse.
  - intros e. rewrite getSafeNonce_run.
    destruct (net h _) as [resp|e'] eqn:Hnet; cbn [fst].
    + destruct (Body resp) as [body|e'] eqn:Hbody.
      * destruct (json_Unmarshal _ body _) as [data|e'] eqn:Hdec; intros E;
          inversion E. subst e'.
        eapply Unmarshal_failure; eauto using safeNonceResponse_type_errors.
      * intros E. inversion E. subst e'. eapply UnreadableBody; eauto.
    + intros E. inversion E. subst e'. now apply TransportFailure.
  - intros e. rewrite getGasEstimation_run.
    destruct (net h _) as [resp|e'] eqn:Hnet; cbn [fst].
    + destruct (Body resp) as [body|e'] eqn:Hbody.
      * destruct (json_Unmarshal _ body _) as [data|e'] eqn:Hdec; intros E.
        -- right. inversion E as [Hparse].
           destruct (ParseInt_error _ _ Hparse) as [k ->].
           exists resp, body, data, k. auto.
        -- left. inversion E. subst e'.
           eapply Unmarshal_failure; eauto using gasEstimationResponse_type_errors.
      * intros E. left. inversion E. subst e'. eapply UnreadableBody; eauto.
    + intros E. left. inversion E. subst e'. now apply TransportFailure.
Qed.
End Fetching.

(** A service that answers 500 with an object without a nonce: the fetch
    gives the nonce 0. *)
Lemma fetching_ignores_status_witness :
  fst (getSafeNonce (Demo.service (Demo.ok 500 (q "{'address': '0x123'}"))
                       Demo.gas21000 (Demo.ok 200 ""))
         Demo.safe [])
  = Return (Ok 0).
Proof.
  destruct (fetching_ignores_status (lib := Demo.library)
              (Demo.service (Demo.ok 500 (q "{'address': '0x123'}"))
                 Demo.gas21000 (Demo.ok 200 ""))
              Demo.to Demo.safe 1000000 []) as (_ & Hnonce & _).
  destruct (Hnonce (mkResponse 500 (Ok (q "{'address': '0x123'}")))
              (q "{'address': '0x123'}")
              (safeNonceResponse.mk "0x123" 0 0 [] "" [] "" "" "")
              eq_refl eq_refl eq_refl) as [_ Hzero].
  apply Hzero. right. exists [("address", JString "0x123")]. split; reflexivity.
Defined.

(** C9 as stated fails: a body that is a JSON document, an empty array or an
    object whose nonce is a string, makes the nonce fetch fail, and so does
    an object without a nonce whose owners are no list. *)
Lemma valid_json_can_fail :
  ~ (forall (net : Network) (safe : string) (h : list Event) (resp : Response)
       (body : string),
       net h (GET (nonce_url safe)) = Ok resp -> Body resp = Ok body ->
       json_parse body <> None ->
       exists n, fst (getSafeNonce net safe h) = Return (Ok n)) /\
  json_parse (q "{'nonce': '5'}") = Some (JObject [("nonce", JString "5")]) /\
  fst (getSafeNonce (Demo.service (Demo.ok 200 (q "{'nonce': '5'}"))
                       Demo.gas21000 (Demo.ok 200 ""))
         Demo.safe [])
  = Return (Err (UnmarshalTypeError "string" "int64")) /\
  json_parse (q "{'owners': 3}") = Some (JObject [("owners", JNumber "3")]) /\
  fst (getSafeNonce (Demo.service (Demo.ok 200 (q "{'owners': 3}"))
                       Demo.gas21000 (Demo.ok 200 ""))
         Demo.safe [])
  = Return (Err (UnmarshalTypeError "number" "[]string")).
Proof.
  split; [|repeat split; vm_compute; reflexivity].
  intros claim.
  destruct (claim (Demo.service (Demo.ok 200 "[]") Demo.gas21000 (Demo.ok 200 ""))
              Demo.safe [] (mkResponse 200 (Ok "[]")) "[]" eq_refl eq_refl)
    as [n Hn].
  - vm_compute. discriminate.
  - vm_compute in Hn. discriminate Hn.
Qed.

(** * More of the code *)

(** ** The recovery id, on any slice *)

(** What the normalization returns, where it returns. *)
Lemma normalizeRecoveryId_inv (signature signature' : list byte) :
  normalizeRecoveryId signature = Return (Ok signature') ->
  exists v, signature !! 64%nat = Some v /\
    signature' = (if Byte.eqb v x00 || Byte.eqb v x01
                  then <[64%nat := byte_add v 27]> signature else signature).
Proof.
  unfold normalizeRecoveryId. destruct (signature !! 64%nat) as [v|]; [|discriminate].
  intros E. exists v. split; [reflexivity|].
  destruct (Byte.eqb v x00 || Byte.eqb v x01); now inversion E.
Qed.

(** X1.  The normalization panics on the slices of 64 bytes or fewer, and on
    no other. *)
Theorem normalizeRecoveryId_panics_iff_short (signature : list byte) :
  (exists msg, normalizeRecoveryId signature = Panic msg) <->
  (length signature <= 64)%nat.
Proof.
  unfold normalizeRecoveryId. split.
  - intros [msg E]. destruct (signature !! 64%nat) as [v|] eqn:Hv.
    + destruct (Byte.eqb v x00 || Byte.eqb v x01); discriminate E.
    + now apply lookup_ge_None in Hv.
  - intros Hlen. apply (lookup_ge_None_2 signature 64%nat) in Hlen.
    rewrite Hlen. eauto.
Qed.

(** X2.  Normalizing twice is normalizing once. *)
Theorem normalizeRecoveryId_idempotent (signature signature' : list byte) :
  normalizeRecoveryId signature = Return (Ok signature') ->
  normalizeRecoveryId signature' = Return (Ok signature').
Proof.
  intros E. destruct (normalizeRecoveryId_inv _ _ E) as (v & Hv & ->).
  pose proof (lookup_lt_Some _ _ _ Hv) as Hlen.
  unfold normalizeRecoveryId.
  destruct (Byte.eqb v x00) eqn:E0; [|destruct (Byte.eqb v x01) eqn:E1]; simpl.
  - apply byte_eqb_eq in E0. subst v.
    rewrite list_lookup_insert_eq by lia. reflexivity.
  - apply byte_eqb_eq in E1. subst v.
    rewrite list_lookup_insert_eq by lia. reflexivity.
  - rewrite Hv, E0, E1. reflexivity.
Qed.

(** X3.  A normalized signature is as long as the signature was, its byte 64
    is neither 0 nor 1, and every other byte is the byte it was. *)
Theorem normalized_recovery_id_not_raw (signature signature' : list byte) :
  normalizeRecoveryId signature = Return (Ok signature') ->
  length signature' = length signature /\
  (exists v, signature' !! 64%nat = Some v /\ v <> x00 /\ v <> x01) /\
  (forall i, i <> 64%nat -> signature' !! i = signature !! i).
Proof.
  intros E. destruct (normalizeRecoveryId_inv _ _ E) as (v & Hv & ->).
  pose proof (lookup_lt_Some _ _ _ Hv) as Hlen.
  destruct (Byte.eqb v x00) eqn:E0; [|destruct (Byte.eqb v x01) eqn:E1]; simpl.
  - apply byte_eqb_eq in E0. subst v. repeat split.
    + apply length_insert.
    + exists x1b. rewrite list_lookup_insert_eq by lia. repeat split; discriminate.
    + intros i Hi. apply list_lookup_insert_ne. lia.
  - apply byte_eqb_eq in E1. subst v. repeat split.
    + apply length_insert.
    + exists x1c. rewrite list_lookup_insert_eq by lia. repeat split; discriminate.
    + intros i Hi. apply list_lookup_insert_ne. lia.
  - repeat split. exists v. repeat split; [exact Hv| |].
    + intros ->. discriminate E0.
    + intros ->. discriminate E1.
Qed.

Lemma normalizeRecoveryId_idempotent_witness :
  normalizeRecoveryId (repeat x07 64 ++ [x1b; x09])
  = Return (Ok (repeat x07 64 ++ [x1b; x09])).
Proof.
  apply (normalizeRecoveryId_idempotent (repeat x07 64 ++ [x00; x09])). reflexivity.
Defined.

Lemma normalized_recovery_id_witness :
  length (repeat x07 64 ++ [x1c]) = length (repeat x07 64 ++ [x01]).
Proof.
  exact (proj1 (normalized_recovery_id_not_raw (repeat x07 64 ++ [x01])
                  (repeat x07 64 ++ [x1c]) eq_refl)).
Defined.

Section MoreOrchestrator.
Context {lib : Library}.

(** X4.  No run of [sendTransaction] panics: it returns, with success or
    with an error. *)
Theorem sendTransaction_never_panics (net : Network) (from to safe : string)
    (amount : Z) (privKey : string) (h : list Event) :
  exists r, fst (sendTransaction net from to safe amount privKey h) = Return r.
Proof.
  pose proof (sendTransaction_linear_run net from to safe amount privKey h) as Hrun.
  destruct (sendTransaction net from to safe amount privKey h) as [o evs].
  inversion Hrun; subst; simpl; eauto.
Qed.
End MoreOrchestrator.

(** ** Decoding, member by member *)

Lemma decode_members_app {S} (fs : list (field S)) (ms1 ms2 : list (string * json))
    (v : S) (saved : option error) :
  decode_members fs (ms1 ++ ms2) v saved =
    decode_members fs ms2 (fst (decode_members fs ms1 v saved))
      (snd (decode_members fs ms1 v saved)).
Proof.
  revert v saved. induction ms1 as [|[key j] ms1 IH]; intros v saved; [reflexivity|].
  cbn [app decode_members]. destruct (find_field key fs) as [f|]; [|apply IH].
  destruct (field_store f j v) as [v' e]. apply IH.
Qed.

(** An error that is saved stays. *)
Lemma decode_members_saved {S} (fs : list (field S)) (ms : list (string * json))
    (v : S) (e : error) :
  snd (decode_members fs ms v (Some e)) = Some e.
Proof.
  revert v. induction ms as [|[key j] ms IH]; intros v; [reflexivity|].
  cbn [decode_members]. destruct (find_field key fs) as [f|]; [|apply IH].
  destruct (field_store f j v) as [v' e']. apply IH.
Qed.

Lemma decode_members_no_error {S} (fs : list (field S)) (ms : list (string * json))
    (v : S) (saved : option error) :
  snd (decode_members fs ms v saved) = None -> saved = None.
Proof.
  destruct saved as [e|]; [|reflexivity]. now rewrite decode_members_saved.
Qed.






(** A member whose key names no field changes nothing. *)
Lemma decode_members_unknown {S} (fs : list (field S)) (ms1 ms2 : list (string * json))
    (key : string) (j : json) (v : S) (saved : option error) :
  find_field key fs = None ->
  decode_members fs (ms1 ++ (key, j) :: ms2) v saved
  = decode_members fs (ms1 ++ ms2) v saved.
Proof.
  intros Hf. rewrite !decode_members_app. cbn [decode_members]. now rewrite Hf.
Qed.

(** X14.  A member of the account document whose key names no field of
    [safeNonceResponse] is ignored, whatever it holds: with or without it
    the nonce fetch gives the same. *)
Theorem unknown_member_is_ignored (net net' : Network) (safe : string)
    (h h' : list Event) (resp resp' : Response) (body body' : string)
    (ms1 ms2 : list (string * json)) (key : string) (j : json) :
  net h (GET (nonce_url safe)) = Ok resp -> Body resp = Ok body ->
  net' h' (GET (nonce_url safe)) = Ok resp' -> Body resp' = Ok body' ->
  json_parse body = Some (JObject (ms1 ++ (key, j) :: ms2)) ->
  json_parse body' = Some (JObject (ms1 ++ ms2)) ->
  find_field key (fields safeNonceResponse.type) = None ->
  fst (getSafeNonce net safe h) = fst (getSafeNonce net' safe h').
Proof.
  intros Hnet Hbody Hnet' Hbody' Hp Hp' Hf.
  rewrite !getSafeNonce_run, Hnet, Hnet'. cbn [fst]. rewrite Hbody, Hbody'.
  unfold json_Unmarshal. rewrite Hp, Hp'. unfold decode_struct.
  now rewrite (decode_members_unknown _ _ _ _ _ _ _ Hf).
Qed.

Lemma unknown_member_is_ignored_witness :
  fst (getSafeNonce (Demo.service (Demo.ok 200 (q "{'nonce': 5, 'extra': [1, {}]}"))
                       Demo.gas21000 (Demo.ok 200 "")) Demo.safe [])
  = fst (getSafeNonce (Demo.service (Demo.ok 200 (q "{'nonce': 5}"))
                         Demo.gas21000 (Demo.ok 200 "")) Demo.safe [EvReadAll]).
Proof.
  apply (unknown_member_is_ignored _ _ Demo.safe [] [EvReadAll]
           (mkResponse 200 (Ok (q "{'nonce': 5, 'extra': [1, {}]}")))
           (mkResponse 200 (Ok (q "{'nonce': 5}")))
           (q "{'nonce': 5, 'extra': [1, {}]}") (q "{'nonce': 5}")
           [("nonce", JNumber "5")] [] "extra" (JArray [JNumber "1"; JObject []]));
    reflexivity.
Defined.

(** ** The estimate, at its edges *)

(** A key that does not name [safeTxGas] leaves it as it is. *)
Lemma other_field_keeps_SafeTxGas (key : string) (f : field gasEstimationResponse.t)
    (j : json) (d : gasEstimationResponse.t) :
  find_field key (fields gasEstimationResponse.type) = Some f ->
  String.eqb (foldName key) (foldName "safeTxGas") = false ->
  gasEstimationResponse.SafeTxGas (fst (field_store f j d))
  = gasEstimationResponse.SafeTxGas d.
Proof.
  intros Hf Hkey. apply find_field_matches in Hf. destruct Hf as [Hin Hname].
  each_field Hin; cbn [field_store field_name] in *; unfold gasEstimationResponse.via;
    try (rewrite <- Hname in Hkey; discriminate Hkey);
    match goal with
    | |- context [let (_, _) := ?s in _] => destruct s
    end; destruct d; reflexivity.
Qed.

Lemma decode_members_keeps_SafeTxGas (members : list (string * json))
    (v : gasEstimationResponse.t) (saved : option error) :
  lacks_field "safeTxGas" members = true ->
  gasEstimationResponse.SafeTxGas
    (fst (decode_members (fields gasEstimationResponse.type) members v saved))
  = gasEstimationResponse.SafeTxGas v.
Proof.
  revert v saved. induction members as [|[key j] members IH]; intros v saved Hl;
    [reflexivity|].
  simpl in Hl. apply andb_true_iff in Hl. destruct Hl as [Hk Hl].
  apply negb_true_iff in Hk.
  cbn [decode_members].
  destruct (find_field key (fields gasEstimationResponse.type)) as [f|] eqn:Ef.
  - pose proof (other_field_keeps_SafeTxGas key f j v Ef Hk) as Hkeep.
    destruct (field_store f j v) as [v1 e1]. simpl in Hkeep.
    rewrite (IH v1 _ Hl). exact Hkeep.
  - now apply IH.
Qed.

Lemma Unmarshal_lacks_safeTxGas (body : string) (data : gasEstimationResponse.t) :
  json_Unmarshal gasEstimationResponse.type body (zero gasEstimationResponse.type)
    = Ok data ->
  (json_parse body = Some JNull \/
   exists members, json_parse body = Some (JObject members) /\
                   lacks_field "safeTxGas" members = true) ->
  gasEstimationResponse.SafeTxGas data = "".
Proof.
  unfold json_Unmarshal. intros Hdec [Hp|(members & Hp & Hl)]; rewrite Hp in Hdec.
  - inversion Hdec. reflexivity.
  - unfold decode_struct in Hdec.
    pose proof (decode_members_keeps_SafeTxGas members
                  (zero gasEstimationResponse.type) None Hl) as Hkeep.
    destruct (decode_members _ members _ None) as [v' [e|]]; inversion Hdec.
    subst. exact Hkeep.
Qed.

Section MoreEstimator.
Context {lib : Library}.

(** X5.  A [safeTxGas] that writes an integer beyond 64 bits makes the
    estimate fail with the range error of [strconv.ParseInt]; no value is cut
    to fit. *)
Theorem estimate_beyond_int64 (net : Network) (to safe : string) (value : Z)
    (h : list Event) (resp : Response) (body : string) (data : gasEstimationResponse.t)
    (n : Z) :
  net h (estimate_post to safe value) = Ok resp ->
  Body resp = Ok body ->
  json_Unmarshal gasEstimationResponse.type body (zero gasEstimationResponse.type)
    = Ok data ->
  base10_integer (gasEstimationResponse.SafeTxGas data) = Some n ->
  ~ (- 2 ^ 63 <= n < 2 ^ 63) ->
  fst (getGasEstimation net to safe value h)
  = Return (Err (NumError "ParseInt" (gasEstimationResponse.SafeTxGas data) ErrRange)).
Proof.
  intros Hnet Hbody Hdec Hb Hr. rewrite getGasEstimation_run, Hnet. cbn [fst].
  rewrite Hbody, Hdec. now rewrite (ParseInt_out_of_range _ n Hb Hr).
Qed.

(** X6.  An estimate document without [safeTxGas], or [null], gives no gas
    figure: the estimate fails, and where the document decodes, it fails on
    the empty string with the syntax error of [strconv.ParseInt]. *)
Theorem estimate_without_safeTxGas (net : Network) (to safe : string) (value : Z)
    (h : list Event) (resp : Response) (body : string) :
  net h (estimate_post to safe value) = Ok resp ->
  Body resp = Ok body ->
  (json_parse body = Some JNull \/
   exists members, json_parse body = Some (JObject members) /\
                   lacks_field "safeTxGas" members = true) ->
  exists e,
    fst (getGasEstimation net to safe value h) = Return (Err e) /\
    (forall data,
       json_Unmarshal gasEstimationResponse.type body (zero gasEstimationResponse.type)
         = Ok data ->
       e = NumError "ParseInt" "" ErrSyntax).
Proof.
  intros Hnet Hbody Hl. rewrite getGasEstimation_run, Hnet. cbn [fst]. rewrite Hbody.
  destruct (json_Unmarshal _ body _) as [data|e] eqn:Hdec.
  - rewrite (Unmarshal_lacks_safeTxGas body data Hdec Hl).
    eexists. split; [reflexivity|]. reflexivity.
  - exists e. split; [reflexivity|]. discriminate.
Qed.
End MoreEstimator.

Lemma estimate_beyond_int64_witness :
  fst (getGasEstimation (lib := Demo.library)
         (Demo.service Demo.nonce5 (Demo.ok 200 (q "{'safeTxGas': '9223372036854775808'}"))
            (Demo.ok 200 ""))
         Demo.to Demo.safe 1000000 [])
  = Return (Err (NumError "ParseInt" "9223372036854775808" ErrRange)).
Proof.
  apply (estimate_beyond_int64 (lib := Demo.library) _ Demo.to Demo.safe 1000000 []
           (mkResponse 200 (Ok (q "{'safeTxGas': '9223372036854775808'}")))
           (q "{'safeTxGas': '9223372036854775808'}")
           (gasEstimationResponse.mk "9223372036854775808" "" "" "" "" 0 "" "")
           9223372036854775808); try reflexivity.
  vm_compute. intros [_ H]. discriminate H.
Defined.

Lemma estimate_without_safeTxGas_witness :
  exists e,
    fst (getGasEstimation (lib := Demo.library)
           (Demo.service Demo.nonce5 (Demo.ok 200 (q "{'baseGas': '0'}")) (Demo.ok 200 ""))
           Demo.to Demo.safe 1000000 [])
    = Return (Err e).
Proof.
  destruct (estimate_without_safeTxGas (lib := Demo.library)
              (Demo.service Demo.nonce5 (Demo.ok 200 (q "{'baseGas': '0'}"))
                 (Demo.ok 200 ""))
              Demo.to Demo.safe 1000000 []
              (mkResponse 200 (Ok (q "{'baseGas': '0'}"))) (q "{'baseGas': '0'}")
              eq_refl eq_refl) as (e & He & _).
  - right. exists [("baseGas", JString "0")]. split; reflexivity.
  - exists e. exact He.
Defined.

(** ** The submitter, at its edges *)

(** An error document that does not name [nonFieldErrors] decodes to no
    messages. *)
Lemma decode_members_lacks_nonFieldErrors (members : list (string * json))
    (v : gnosisTxErrResponse.t) (saved : option error) :
  lacks_field "nonFieldErrors" members = true ->
  decode_members (fields gnosisTxErrResponse.type) members v saved = (v, saved).
Proof.
  revert v saved. induction members as [|[key j] members IH]; intros v saved Hl;
    [reflexivity|].
  simpl in Hl. apply andb_true_iff in Hl. destruct Hl as [Hk Hl].
  apply negb_true_iff in Hk. cbn [decode_members].
  destruct (find_field key (fields gnosisTxErrResponse.type)) as [f|] eqn:Ef.
  - apply find_field_matches in Ef. destruct Ef as [Hin Hname].
    each_field Hin. cbn [field_name] in Hname. rewrite <- Hname in Hk. discriminate Hk.
  - now apply IH.
Qed.

Lemma Unmarshal_lacks_nonFieldErrors (body : string) :
  (json_parse body = Some JNull \/
   exists members, json_parse body = Some (JObject members) /\
                   lacks_field "nonFieldErrors" members = true) ->
  json_Unmarshal gnosisTxErrResponse.type body (zero gnosisTxErrResponse.type)
  = Ok (gnosisTxErrResponse.mk []).
Proof.
  unfold json_Unmarshal. intros [Hp|(members & Hp & Hl)]; rewrite Hp; [reflexivity|].
  unfold decode_struct. now rewrite (decode_members_lacks_nonFieldErrors members _ _ Hl).
Qed.

Section MoreSubmitter.
Context {lib : Library}.
Variables from to safe : string.
Variables amount safeTxGas nonce : Z.
Variables hash signature : string.

(** X8.  On a status other than 200, an error document without
    [nonFieldErrors], or [null], gives an error whose text is empty: what
    else the document says is lost. *)
Theorem rejection_without_messages (net : Network) (h : list Event)
    (resp : Response) (body : string) :
  net h (submit_post from to safe amount safeTxGas nonce hash signature) = Ok resp ->
  StatusCode resp <> 200 ->
  Body resp = Ok body ->
  (json_parse body = Some JNull \/
   exists members, json_parse body = Some (JObject members) /\
                   lacks_field "nonFieldErrors" members = true) ->
  exists e,
    fst (sendGnosisTx net from to safe amount safeTxGas nonce hash signature h)
    = Return (Err e) /\
    Error e = Some "".
Proof.
  intros Hnet Hne Hbody Hl. rewrite sendGnosisTx_run. cbv zeta. rewrite Hnet.
  destruct (Z.eqb_spec (StatusCode resp) 200) as [E|_]; [contradiction|].
  cbn [fst]. rewrite Hbody, (Unmarshal_lacks_nonFieldErrors body Hl).
  eexists. split; reflexivity.
Qed.

(** X9.  Of the status the submitter keeps only whether it is 200: two
    answers with statuses other than 200 and the same body give the same
    outcome and the same events. *)
Theorem rejection_forgets_status (net net' : Network) (h h' : list Event)
    (resp resp' : Response) :
  net h (submit_post from to safe amount safeTxGas nonce hash signature) = Ok resp ->
  net' h' (submit_post from to safe amount safeTxGas nonce hash signature) = Ok resp' ->
  StatusCode resp <> 200 ->
  StatusCode resp' <> 200 ->
  Body resp = Body resp' ->
  sendGnosisTx net from to safe amount safeTxGas nonce hash signature h
  = sendGnosisTx net' from to safe amount safeTxGas nonce hash signature h'.
Proof.
  intros Hnet Hnet' Hne Hne' Hbody. rewrite !sendGnosisTx_run. cbv zeta.
  rewrite Hnet, Hnet', Hbody.
  destruct (Z.eqb_spec (StatusCode resp) 200) as [E|_]; [contradiction|].
  destruct (Z.eqb_spec (StatusCode resp') 200) as [E|_]; [contradiction|].
  reflexivity.
Qed.
End MoreSubmitter.

Lemma rejection_without_messages_witness :
  exists e,
    fst (sendGnosisTx (lib := Demo.library)
           (Demo.service Demo.nonce5 Demo.gas21000
              (Demo.ok 404 (q "{'detail': 'Not found.'}")))
           Demo.from Demo.to Demo.safe 1000000 21000 5 "0x00" "0x01" [])
    = Return (Err e) /\
    Error e = Some "".
Proof.
  apply (rejection_without_messages (lib := Demo.library) Demo.from Demo.to Demo.safe
           1000000 21000 5 "0x00" "0x01" _ []
           (mkResponse 404 (Ok (q "{'detail': 'Not found.'}")))
           (q "{'detail': 'Not found.'}") eq_refl ltac:(simpl; lia) eq_refl).
  right. exists [("detail", JString "Not found.")]. split; reflexivity.
Defined.

Lemma rejection_forgets_status_witness :
  sendGnosisTx (lib := Demo.library)
    (Demo.service Demo.nonce5 Demo.gas21000 (Demo.ok 404 "<html>"))
    Demo.from Demo.to Demo.safe 1000000 21000 5 "0x00" "0x01" []
  = sendGnosisTx (lib := Demo.library)
      (Demo.service Demo.nonce5 Demo.gas21000 (Demo.ok 500 "<html>"))
      Demo.from Demo.to Demo.safe 1000000 21000 5 "0x00" "0x01" [EvReadAll].
Proof.
  apply (rejection_forgets_status (lib := Demo.library) Demo.from Demo.to Demo.safe
           1000000 21000 5 "0x00" "0x01" _ _ [] [EvReadAll]
           (mkResponse 404 (Ok "<html>")) (mkResponse 500 (Ok "<html>"))
           eq_refl eq_refl ltac:(simpl; lia) ltac:(simpl; lia) eq_refl).
Defined.

(** ** The proposal, once more *)

Lemma hex_EncodeToString_length (b : list byte) :
  String.length (hex_EncodeToString b) = (2 * length b)%nat.
Proof. induction b as [|x b IH]; simpl; [reflexivity|]. rewrite IH. lia. Qed.

Lemma hexutil_Encode_length (b : list byte) :
  String.length (hexutil_Encode b) = (2 + 2 * length b)%nat.
Proof.
  unfold hexutil_Encode.
  change (S (S (String.length (hex_EncodeToString b))) = (2 + 2 * length b)%nat).
  rewrite hex_EncodeToString_length. lia.
Qed.

Lemma hexutil_Encode_prefix (b : list byte) :
  String.prefix "0x" (hexutil_Encode b) = true.
Proof.
  unfold hexutil_Encode.
  change (String.prefix "0x" (String "0" (String "x" (hex_EncodeToString b))) = true).
  simpl. destruct (hex_EncodeToString b); reflexivity.
Qed.

Lemma normalizeRecoveryId_length (signature signature' : list byte) :
  normalizeRecoveryId signature = Return (Ok signature') ->
  length signature' = length signature.
Proof.
  unfold normalizeRecoveryId. destruct (signature !! 64%nat) as [v|]; [|discriminate].
  destruct (Byte.eqb v x00 || Byte.eqb v x01); intros E; inversion E;
    [apply length_insert|reflexivity].
Qed.




Section MoreProposal.
Context {lib : Library}.
Variable net : Network.
Variables from to safe : string.
Variable amount : Z.
Variable privKey : string.
Variable h : list Event.

(** X10.  In the proposal a run submits, [contractTransactionHash] is 66
    characters long and [signature] 132, the two of [0x] and two for each
    byte of the digest and of the signature. *)
Theorem proposal_field_lengths (contentType body : string) :
  In (EvRequest (POST (submit_url safe) contentType body))
     (snd (sendTransaction net from to safe amount privKey h)) ->
  exists request,
    body = encode_gnosisTxRequest request /\
    String.length (gnosisTxRequest.ContractTransactionHash request) = 66%nat /\
    String.length (gnosisTxRequest.Signature request) = 132%nat /\
    String.prefix "0x" (gnosisTxRequest.ContractTransactionHash request) = true /\
    String.prefix "0x" (gnosisTxRequest.Signature request) = true.
Proof.
  intros Hin.
  destruct (submitted_proposal _ _ _ _ _ _ _ _ _ Hin)
    as (nonce & ev1 & safeTxGas & ev2 & digest & key & sig & sig'
        & E1 & E2 & E3 & E4 & E5 & E6 & Hct & Hbody).
  eexists. split; [exact Hbody|]. cbn [gnosisTxRequest.ContractTransactionHash
    gnosisTxRequest.Signature proposal].
  unfold Hash_Hex. rewrite !hexutil_Encode_length, Hash_length.
  rewrite (normalizeRecoveryId_length _ _ E6), (crypto_Sign_length _ _ _ E5).
  repeat split; apply hexutil_Encode_prefix.
Qed.

(** X11.  The proposal a run submits is for the destination, the value and
    the sender the run was given and carries the gas figure the estimate
    returned; the transaction that is hashed has the same value and gas
    figure, and the estimate was asked for the same destination and value. *)
Theorem proposal_matches_inputs (contentType body : string) :
  In (EvRequest (POST (submit_url safe) contentType body))
     (snd (sendTransaction net from to safe amount privKey h)) ->
  exists nonce ev1 safeTxGas ev2 digest request,
    getSafeNonce net safe h = (Return (Ok nonce), ev1) /\
    getGasEstimation net to safe amount (h ++ ev1 ++ [println_nonce nonce])
      = (Return (Ok safeTxGas), ev2) /\
    In (EvRequest (estimate_post to safe amount))
       (snd (sendTransaction net from to safe amount privKey h)) /\
    encodedTxHash (gnosisSafeTx from to safe amount safeTxGas nonce) = Ok digest /\
    gnosisTxRequest.ContractTransactionHash request = Hash_Hex digest /\
    body = encode_gnosisTxRequest request /\
    contentType = "application/json" /\
    gnosisTxRequest.To request = to /\
    gnosisTxRequest.Value request = amount /\
    gnosisTxRequest.Sender request = from /\
    gnosisTxRequest.SafeTxGas request = safeTxGas /\
    gnosisTxRequest.Data request = None /\
    gnosisTxRequest.Origin request = None.
Proof.
  intros Hin.
  destruct (submitted_proposal _ _ _ _ _ _ _ _ _ Hin)
    as (nonce & ev1 & safeTxGas & ev2 & digest & key & sig & sig'
        & E1 & E2 & E3 & E4 & E5 & E6 & Hct & Hbody).
  assert (Hest : In (EvRequest (estimate_post to safe amount))
                   (snd (sendTransaction net from to safe amount privKey h))).
  { clear Hin Hbody.
    pose proof (sendTransaction_linear_run net from to safe amount privKey h) as Hrun.
    destruct (sendTransaction net from to safe amount privKey h) as [o evs]. simpl.
    destruct (getGasEstimation_returns net to safe amount
                (h ++ ev1 ++ [println_nonce nonce])) as (r2 & ev2' & E2' & R2).
    rewrite E2 in E2'. inversion E2'; subst ev2'. clear E2'.
    assert (Hev2 : In (EvRequest (estimate_post to safe amount)) ev2).
    { revert R2. clear. induction ev2 as [|ev evs IH]; [discriminate|].
      destruct ev as [r| |args]; cbn.
      - intros E. inversion E. now left.
      - intros E. right. now apply IH.
      - intros E. right. now apply IH. }
    inversion Hrun as
      [e ev1' F1
      |nonce' ev1' e ev2' F1 F2
      |nonce' ev1' safeTxGas' ev2' e F1 F2 F3
      |nonce' ev1' safeTxGas' ev2' digest' e F1 F2 F3 F4
      |nonce' ev1' safeTxGas' ev2' digest' key' sg sg' r ev3 F1 F2 F3 F4 F5 F6 F7];
      subst; rewrite E1 in F1; inversion F1; subst;
      rewrite E2 in F2; inversion F2; subst;
      apply in_or_app; right; right; apply in_or_app; left; exact Hev2. }
  exists nonce, ev1, safeTxGas, ev2, digest,
    (proposal from to amount safeTxGas nonce (Hash_Hex digest) (hexutil_Encode sig')).
  repeat split; assumption.
Qed.

(** X12.  A private key that does not parse is found out late: nothing is
    submitted, but where the fetches and the digest succeed the two requests
    before have been sent, and the run ends with the error of the key. *)
Theorem bad_key_submits_nothing (e : error) :
  crypto_HexToECDSA privKey = Err e ->
  (forall contentType body,
     ~ In (EvRequest (POST (submit_url safe) contentType body))
          (snd (sendTransaction net from to safe amount privKey h))) /\
  (forall nonce safeTxGas digest,
     fst (fetch net to safe amount h) = Return (Ok (nonce, safeTxGas)) ->
     encodedTxHash (gnosisSafeTx from to safe amount safeTxGas nonce) = Ok digest ->
     fst (sendTransaction net from to safe amount privKey h) = Return (Err e) /\
     requests (snd (sendTransaction net from to safe amount privKey h))
     = [GET (nonce_url safe); estimate_post to safe amount]).
Proof.
  intros Hkey. split.
  - intros contentType body Hin.
    destruct (submitted_proposal _ _ _ _ _ _ _ _ _ Hin)
      as (nonce & ev1 & safeTxGas & ev2 & digest & key & sig & sig'
          & E1 & E2 & E3 & E4 & _).
    rewrite Hkey in E4. discriminate E4.
  - intros nonce safeTxGas digest Hf Hd.
    destruct (fetch_inv _ _ _ _ _ _ _ Hf) as (ev1 & ev2 & E1 & E2).
    destruct (getSafeNonce_returns net safe h) as (r1 & ev1' & E1' & R1).
    rewrite E1 in E1'. inversion E1'; subst ev1'. clear E1'.
    destruct (getGasEstimation_returns net to safe amount
                (h ++ ev1 ++ [println_nonce nonce])) as (r2 & ev2' & E2' & R2).
    rewrite E2 in E2'. inversion E2'; subst ev2'. clear E2'.
    pose proof (sendTransaction_linear_run net from to safe amount privKey h) as Hrun.
    destruct (sendTransaction net from to safe amount privKey h) as [o evs]. simpl.
    inversion Hrun as
      [e' ev1' F1
      |nonce' ev1' e' ev2' F1 F2
      |nonce' ev1' safeTxGas' ev2' e' F1 F2 F3
      |nonce' ev1' safeTxGas' ev2' digest' e' F1 F2 F3 F4
      |nonce' ev1' safeTxGas' ev2' digest' key' sg sg' r ev3 F1 F2 F3 F4 F5 F6 F7];
      subst; rewrite E1 in F1; inversion F1; subst;
      rewrite E2 in F2; inversion F2; subst.
    + rewrite Hd in F3. discriminate F3.
    + destruct F4 as [F4|(key & F4 & _)]; rewrite Hkey in F4; [|discriminate F4].
      inversion F4. subst. split; [reflexivity|].
      requests_norm. rewrite R1, R2. reflexivity.
    + rewrite Hkey in F4. discriminate F4.
Qed.

End MoreProposal.

Lemma proposal_field_lengths_witness :
  exists request,
    Demo.posted = @encode_gnosisTxRequest Demo.library request /\
    String.length (gnosisTxRequest.ContractTransactionHash request) = 66%nat /\
    String.length (gnosisTxRequest.Signature request) = 132%nat.
Proof.
  destruct (proposal_field_lengths (lib := Demo.library) Demo.accepting Demo.from Demo.to
              Demo.safe 1000000 Demo.privKey [] "application/json" Demo.posted demo_posted)
    as (request & Hbody & Hhash & Hsig & _).
  exists request. repeat split; assumption.
Defined.

Lemma proposal_matches_inputs_witness :
  exists request,
    Demo.posted = @encode_gnosisTxRequest Demo.library request /\
    gnosisTxRequest.To request = Demo.to /\
    gnosisTxRequest.Value request = 1000000 /\
    gnosisTxRequest.Sender request = Demo.from /\
    gnosisTxRequest.SafeTxGas request = 21000.
Proof.
  destruct (proposal_matches_inputs (lib := Demo.library) Demo.accepting Demo.from Demo.to
              Demo.safe 1000000 Demo.privKey [] "application/json" Demo.posted demo_posted)
    as (nonce & ev1 & safeTxGas & ev2 & digest & request
        & E1 & E2 & _ & _ & _ & Hbody & _ & Hto & Hvalue & Hsender & Hgas & _).
  exists request. repeat split; try assumption.
  rewrite Hgas. vm_compute in E1. inversion E1; subst.
  vm_compute in E2. now inversion E2.
Defined.

Lemma bad_key_submits_nothing_witness :
  fst (sendTransaction (lib := Demo.library) Demo.accepting Demo.from Demo.to Demo.safe
         1000000 "abc" [])
  = Return (Err (EthError "invalid length, need 256 bits")) /\
  requests (snd (sendTransaction (lib := Demo.library) Demo.accepting Demo.from Demo.to
                   Demo.safe 1000000 "abc" []))
  = [GET (nonce_url Demo.safe); estimate_post (lib := Demo.library) Demo.to Demo.safe 1000000].
Proof.
  eapply (proj2 (bad_key_submits_nothing (lib := Demo.library) Demo.accepting Demo.from
                   Demo.to Demo.safe 1000000 "abc" []
                   (EthError "invalid length, need 256 bits") eq_refl)).
  - vm_compute. reflexivity.
  - vm_compute. reflexivity.
Defined.

Section MoreMain.
Context {lib : Library}.

(** A run returns. *)
Lemma sendTransaction_returns (net : Network) (from to safe : string)
    (amount : Z) (privKey : string) (h : list Event) :
  exists r, fst (sendTransaction net from to safe amount privKey h) = Return r.
Proof.
  pose proof (sendTransaction_linear_run net from to safe amount privKey h) as Hrun.
  destruct (sendTransaction net from to safe amount privKey h) as [o evs].
  inversion Hrun; subst; simpl; eauto.
Qed.


(** X13.  [main] always returns without an error: a failure of
    [sendTransaction] is printed after the events of the run, as one line
    that starts with [error:], and goes no further; a success adds
    nothing. *)
Theorem main_reports_and_returns (errorText : error -> string) (net : Network)
    (h : list Event) :
  let run := sendTransaction net "<SIGNER_ADDRESS>" "<RECEIVER_ADDRESS>"
               "<SAFE_ADDRESS>" 1000000 "<SIGNER_PRIVATE_KEY>" h in
  fst (main errorText net h) = Return (Ok tt) /\
  (fst run = Return (Ok tt) -> snd (main errorText net h) = snd run) /\
  (forall err, fst run = Return (Err err) ->
     snd (main errorText net h)
     = snd run ++ [EvPrintln [PString "error:"; PString (errorText err)]]) /\
  requests (snd (main errorText net h)) = requests (snd run).
Proof.
  intros run.
  destruct (sendTransaction_returns net "<SIGNER_ADDRESS>" "<RECEIVER_ADDRESS>"
              "<SAFE_ADDRESS>" 1000000 "<SIGNER_PRIVATE_KEY>" h) as [r Hr].
  fold run in Hr. unfold main. fold run.
  destruct run as [o evs]. simpl in *. subst o.
  destruct r as [[]|err]; simpl.
  - repeat split; try reflexivity. intros err E. discriminate E.
  - repeat split; try discriminate.
    + intros err' E. inversion E. reflexivity.
    + rewrite requests_app. simpl. apply app_nil_r.
Qed.
End MoreMain.
